(** * STK502 LCD driver (lcd.c) and TLC5615 D/A driver (dtoa.c)

    A shallow embedding of the two peripheral drivers and the properties
    of their register-level behaviour.

    Integers of the C program are modelled as [Z]; every conversion the
    C code performs on a store (to [char], to [uint8_t], to the 16-bit
    [unsigned int] of the AVR) is written out.  Memory-mapped registers
    are fields of a record; hardware that the program only reads (the
    SPI status register) is an input stream indexed by the number of
    reads performed so far. *)

From Stdlib Require Import ZArith List Lia Bool String Ascii.
Import ListNotations.
Local Open Scope Z_scope.

(* ================================================================== *)
(** ** Integer conversions *)

(** Store into a [uint8_t] / [unsigned char] object. *)
Definition to_uint8 (z : Z) : Z := z mod 256.

(** Store into the 16-bit [unsigned int] of the AVR. *)
Definition to_uint16 (z : Z) : Z := z mod 65536.

(** Store into a plain [char].  Whether plain [char] is signed is a
    compiler setting (avr-gcc: signed unless -funsigned-char), so it is a
    parameter of the model. *)
Definition to_char (char_signed : bool) (z : Z) : Z :=
  let u := z mod 256 in
  if char_signed && (128 <=? u) then u - 256 else u.

(* ================================================================== *)
(** ** errors.h *)

(** The error codes lcd.c uses.  The header is not part of the sources
    at hand; only the three enumerators named in lcd.c are needed. *)
Inductive eErrorType : Type :=
| NO_ERROR
| LCD_INVALID_CHAR
| LCD_INVALID_POS.

(** A C function returning an [eErrorType] and filling its out-parameters
    only when it returns [NO_ERROR]. *)
Inductive result (A : Type) : Type :=
| Ok (a : A)
| Err (e : eErrorType).
Arguments Ok {A} a.
Arguments Err {A} e.

Definition result_bind {A B : Type} (r : result A) (k : A -> result B)
  : result B :=
  match r with
  | Ok a => k a
  | Err e => Err e
  end.

Notation "'check' x <- r ; k" := (result_bind r (fun x => k))
  (at level 10, x pattern, r at level 100, k at level 200).

(* ================================================================== *)
(** ** lcd.c *)

(** Character literals of the source. *)
Definition chr_0 : Z := 48.      (* '0' *)
Definition chr_9 : Z := 57.      (* '9' *)
Definition chr_space : Z := 32.  (* ' ' *)

Definition NumberSegments : list Z :=
  [ 0x1551;   (* 0 *)
    0x0110;   (* 1 *)
    0x1E11;   (* 2 *)
    0x1B11;   (* 3 *)
    0x0B50;   (* 4 *)
    0x1B41;   (* 5 *)
    0x1F40;   (* 6 *)
    0x0111;   (* 7 *)
    0x1F51;   (* 8 *)
    0x0B51    (* 9 *) ].

(** [NumberSegments[index]] for an index inside the array. *)
Definition NumberSegments_at (index : Z) : Z :=
  nth (Z.to_nat index) NumberSegments 0.

(** The LCD data registers that lcd.c names. *)
Record LCDDR : Type := mkLCDDR {
  LCDDR0 : Z;  LCDDR1 : Z;  LCDDR2 : Z;  LCDDR3 : Z;
  LCDDR5 : Z;  LCDDR6 : Z;  LCDDR7 : Z;  LCDDR8 : Z;
  LCDDR10 : Z; LCDDR11 : Z; LCDDR12 : Z; LCDDR13 : Z;
  LCDDR15 : Z; LCDDR16 : Z; LCDDR17 : Z
}.

(** Assignments [LCDDRn = v]; the register is 8 bits wide. *)
Definition set_LCDDR0 (v : Z) (r : LCDDR) : LCDDR :=
  mkLCDDR (to_uint8 v) (LCDDR1 r) (LCDDR2 r) (LCDDR3 r)
          (LCDDR5 r) (LCDDR6 r) (LCDDR7 r) (LCDDR8 r)
          (LCDDR10 r) (LCDDR11 r) (LCDDR12 r) (LCDDR13 r)
          (LCDDR15 r) (LCDDR16 r) (LCDDR17 r).
Definition set_LCDDR1 (v : Z) (r : LCDDR) : LCDDR :=
  mkLCDDR (LCDDR0 r) (to_uint8 v) (LCDDR2 r) (LCDDR3 r)
          (LCDDR5 r) (LCDDR6 r) (LCDDR7 r) (LCDDR8 r)
          (LCDDR10 r) (LCDDR11 r) (LCDDR12 r) (LCDDR13 r)
          (LCDDR15 r) (LCDDR16 r) (LCDDR17 r).
Definition set_LCDDR2 (v : Z) (r : LCDDR) : LCDDR :=
  mkLCDDR (LCDDR0 r) (LCDDR1 r) (to_uint8 v) (LCDDR3 r)
          (LCDDR5 r) (LCDDR6 r) (LCDDR7 r) (LCDDR8 r)
          (LCDDR10 r) (LCDDR11 r) (LCDDR12 r) (LCDDR13 r)
          (LCDDR15 r) (LCDDR16 r) (LCDDR17 r).
Definition set_LCDDR5 (v : Z) (r : LCDDR) : LCDDR :=
  mkLCDDR (LCDDR0 r) (LCDDR1 r) (LCDDR2 r) (LCDDR3 r)
          (to_uint8 v) (LCDDR6 r) (LCDDR7 r) (LCDDR8 r)
          (LCDDR10 r) (LCDDR11 r) (LCDDR12 r) (LCDDR13 r)
          (LCDDR15 r) (LCDDR16 r) (LCDDR17 r).
Definition set_LCDDR6 (v : Z) (r : LCDDR) : LCDDR :=
  mkLCDDR (LCDDR0 r) (LCDDR1 r) (LCDDR2 r) (LCDDR3 r)
          (LCDDR5 r) (to_uint8 v) (LCDDR7 r) (LCDDR8 r)
          (LCDDR10 r) (LCDDR11 r) (LCDDR12 r) (LCDDR13 r)
          (LCDDR15 r) (LCDDR16 r) (LCDDR17 r).
Definition set_LCDDR7 (v : Z) (r : LCDDR) : LCDDR :=
  mkLCDDR (LCDDR0 r) (LCDDR1 r) (LCDDR2 r) (LCDDR3 r)
          (LCDDR5 r) (LCDDR6 r) (to_uint8 v) (LCDDR8 r)
          (LCDDR10 r) (LCDDR11 r) (LCDDR12 r) (LCDDR13 r)
          (LCDDR15 r) (LCDDR16 r) (LCDDR17 r).
Definition set_LCDDR10 (v : Z) (r : LCDDR) : LCDDR :=
  mkLCDDR (LCDDR0 r) (LCDDR1 r) (LCDDR2 r) (LCDDR3 r)
          (LCDDR5 r) (LCDDR6 r) (LCDDR7 r) (LCDDR8 r)
          (to_uint8 v) (LCDDR11 r) (LCDDR12 r) (LCDDR13 r)
          (LCDDR15 r) (LCDDR16 r) (LCDDR17 r).
Definition set_LCDDR11 (v : Z) (r : LCDDR) : LCDDR :=
  mkLCDDR (LCDDR0 r) (LCDDR1 r) (LCDDR2 r) (LCDDR3 r)
          (LCDDR5 r) (LCDDR6 r) (LCDDR7 r) (LCDDR8 r)
          (LCDDR10 r) (to_uint8 v) (LCDDR12 r) (LCDDR13 r)
          (LCDDR15 r) (LCDDR16 r) (LCDDR17 r).
Definition set_LCDDR12 (v : Z) (r : LCDDR) : LCDDR :=
  mkLCDDR (LCDDR0 r) (LCDDR1 r) (LCDDR2 r) (LCDDR3 r)
          (LCDDR5 r) (LCDDR6 r) (LCDDR7 r) (LCDDR8 r)
          (LCDDR10 r) (LCDDR11 r) (to_uint8 v) (LCDDR13 r)
          (LCDDR15 r) (LCDDR16 r) (LCDDR17 r).
Definition set_LCDDR15 (v : Z) (r : LCDDR) : LCDDR :=
  mkLCDDR (LCDDR0 r) (LCDDR1 r) (LCDDR2 r) (LCDDR3 r)
          (LCDDR5 r) (LCDDR6 r) (LCDDR7 r) (LCDDR8 r)
          (LCDDR10 r) (LCDDR11 r) (LCDDR12 r) (LCDDR13 r)
          (to_uint8 v) (LCDDR16 r) (LCDDR17 r).
Definition set_LCDDR16 (v : Z) (r : LCDDR) : LCDDR :=
  mkLCDDR (LCDDR0 r) (LCDDR1 r) (LCDDR2 r) (LCDDR3 r)
          (LCDDR5 r) (LCDDR6 r) (LCDDR7 r) (LCDDR8 r)
          (LCDDR10 r) (LCDDR11 r) (LCDDR12 r) (LCDDR13 r)
          (LCDDR15 r) (to_uint8 v) (LCDDR17 r).
Definition set_LCDDR17 (v : Z) (r : LCDDR) : LCDDR :=
  mkLCDDR (LCDDR0 r) (LCDDR1 r) (LCDDR2 r) (LCDDR3 r)
          (LCDDR5 r) (LCDDR6 r) (LCDDR7 r) (LCDDR8 r)
          (LCDDR10 r) (LCDDR11 r) (LCDDR12 r) (LCDDR13 r)
          (LCDDR15 r) (LCDDR16 r) (to_uint8 v).

(** What a caller of lcd.c can observe: the data registers and the
    errors handed to [ReportError], oldest first. *)
Record lcd_state : Type := mkLcd {
  regs : LCDDR;
  reported : list eErrorType
}.

(** Modelled from the spec: [ReportError] is defined outside the
    sources at hand.  The error-reporting collaborator receives an error
    classification and has no return channel into the engine, so a call
    is recorded and changes nothing else. *)
Definition ReportError (error : eErrorType) (s : lcd_state) : lcd_state :=
  mkLcd (regs s) (reported s ++ [error]).

Section Lcd.

Variable char_signed : bool.

(** The four out-parameters are returned as a tuple
    [(LCDDRx, LCDDRx5, LCDDRx10, LCDDRx15)]. *)
Definition GetLCDDRValues (LCDChar : Z) : result (Z * Z * Z * Z) :=
  let index := LCDChar - chr_0 in
  if (LCDChar >=? chr_0) && (LCDChar <=? chr_9) then
    Ok ( to_char char_signed (Z.land (NumberSegments_at index) 0x000F),
         to_char char_signed
           (Z.shiftr (Z.land (NumberSegments_at index) 0x00F0) 4),
         to_char char_signed
           (Z.shiftr (Z.land (NumberSegments_at index) 0x0F00) 8),
         to_char char_signed
           (Z.shiftr (Z.land (NumberSegments_at index) 0xF000) 12) )
  else if LCDChar =? chr_space then
    Ok (0x00, 0x00, 0x00, 0x00)
  else
    Err LCD_INVALID_CHAR.

(** The two out-parameters are returned as the pair [(LCDDRx, Nibble)].
    C division and remainder truncate towards zero. *)
Definition GetLCDDRx (CharPosition : Z) : result (Z * Z) :=
  if (CharPosition >=? 2) && (CharPosition <=? 7) then
    Ok ( to_char char_signed (Z.quot CharPosition 2 - 1),
         to_char char_signed (Z.rem CharPosition 2) )
  else
    Err LCD_INVALID_POS.

(** The arm of [switch (LCDDRx)] that is taken. *)
Inductive switch_arm : Type := case_0 | case_1 | case_2 | case_default.

Definition switch_LCDDRx (LCDDRx : Z) : switch_arm :=
  if LCDDRx =? 0 then case_0
  else if LCDDRx =? 1 then case_1
  else if LCDDRx =? 2 then case_2
  else case_default.

(** The two right-hand sides of the register assignments. *)
Definition low_nibble_write (old value : Z) : Z :=
  Z.lor (Z.land old 0xF0) value.
Definition high_nibble_write (old value : Z) : Z :=
  Z.lor (Z.land old 0x0F) (Z.shiftl value 4).

(** The body of the [switch]; [Position] has type [unsigned char] and is
    converted to [char] when passed on to [GetLCDDRx]. *)
Definition LCDWrite (LCDChar : Z) (Position : Z) (s : lcd_state)
  : lcd_state :=
  match (check (LCDDRx, Nibble) <- GetLCDDRx (to_char char_signed Position);
         check values <- GetLCDDRValues LCDChar;
         Ok (LCDDRx, Nibble, values)) with
  | Ok (LCDDRx, Nibble,
        (LCDDRxValue, LCDDRx5Value, LCDDRx10Value, LCDDRx15Value)) =>
      let r := regs s in
      match switch_LCDDRx LCDDRx with
      | case_0 =>
          if Nibble =? 0 then
            let r := set_LCDDR0  (low_nibble_write (LCDDR0 r)  LCDDRxValue) r in
            let r := set_LCDDR5  (low_nibble_write (LCDDR5 r)  LCDDRx5Value) r in
            let r := set_LCDDR10 (low_nibble_write (LCDDR10 r) LCDDRx10Value) r in
            let r := set_LCDDR15 (low_nibble_write (LCDDR15 r) LCDDRx15Value) r in
            mkLcd r (reported s)
          else
            let r := set_LCDDR0  (high_nibble_write (LCDDR0 r)  LCDDRxValue) r in
            let r := set_LCDDR5  (high_nibble_write (LCDDR5 r)  LCDDRx5Value) r in
            let r := set_LCDDR10 (high_nibble_write (LCDDR10 r) LCDDRx10Value) r in
            let r := set_LCDDR15 (high_nibble_write (LCDDR15 r) LCDDRx15Value) r in
            mkLcd r (reported s)
      | case_1 =>
          if Nibble =? 0 then
            let r := set_LCDDR1  (low_nibble_write (LCDDR1 r)  LCDDRxValue) r in
            let r := set_LCDDR6  (low_nibble_write (LCDDR6 r)  LCDDRx5Value) r in
            let r := set_LCDDR11 (low_nibble_write (LCDDR11 r) LCDDRx10Value) r in
            let r := set_LCDDR16 (low_nibble_write (LCDDR16 r) LCDDRx15Value) r in
            mkLcd r (reported s)
          else
            let r := set_LCDDR1  (high_nibble_write (LCDDR1 r)  LCDDRxValue) r in
            let r := set_LCDDR6  (high_nibble_write (LCDDR6 r)  LCDDRx5Value) r in
            let r := set_LCDDR11 (high_nibble_write (LCDDR11 r) LCDDRx10Value) r in
            let r := set_LCDDR16 (high_nibble_write (LCDDR16 r) LCDDRx15Value) r in
            mkLcd r (reported s)
      | case_2 =>
          if Nibble =? 0 then
            let r := set_LCDDR2  (low_nibble_write (LCDDR2 r)  LCDDRxValue) r in
            let r := set_LCDDR7  (low_nibble_write (LCDDR7 r)  LCDDRx5Value) r in
            let r := set_LCDDR12 (low_nibble_write (LCDDR12 r) LCDDRx10Value) r in
            let r := set_LCDDR17 (low_nibble_write (LCDDR17 r) LCDDRx15Value) r in
            mkLcd r (reported s)
          else
            let r := set_LCDDR2  (high_nibble_write (LCDDR2 r)  LCDDRxValue) r in
            let r := set_LCDDR7  (high_nibble_write (LCDDR7 r)  LCDDRx5Value) r in
            let r := set_LCDDR12 (high_nibble_write (LCDDR12 r) LCDDRx10Value) r in
            let r := set_LCDDR17 (high_nibble_write (LCDDR17 r) LCDDRx15Value) r in
            mkLcd r (reported s)
      | case_default =>
          (* Should never happen *)
          s
      end
  | Err error => ReportError error s
  end.

End Lcd.

(** Names for the data registers, to quantify over them. *)
Inductive lcddr_name : Type :=
| DR0 | DR1 | DR2 | DR3 | DR5 | DR6 | DR7 | DR8
| DR10 | DR11 | DR12 | DR13 | DR15 | DR16 | DR17.

Definition read (x : lcddr_name) (r : LCDDR) : Z :=
  match x with
  | DR0 => LCDDR0 r | DR1 => LCDDR1 r | DR2 => LCDDR2 r | DR3 => LCDDR3 r
  | DR5 => LCDDR5 r | DR6 => LCDDR6 r | DR7 => LCDDR7 r | DR8 => LCDDR8 r
  | DR10 => LCDDR10 r | DR11 => LCDDR11 r | DR12 => LCDDR12 r
  | DR13 => LCDDR13 r
  | DR15 => LCDDR15 r | DR16 => LCDDR16 r | DR17 => LCDDR17 r
  end.

(** The registers assigned in each arm of the [switch], in the order of
    the four assignments (they receive [LCDDRxValue], [LCDDRx5Value],
    [LCDDRx10Value], [LCDDRx15Value] in that order). *)
Definition group_registers (group : Z) : list lcddr_name :=
  match switch_LCDDRx group with
  | case_0 => [DR0; DR5; DR10; DR15]
  | case_1 => [DR1; DR6; DR11; DR16]
  | case_2 => [DR2; DR7; DR12; DR17]
  | case_default => []
  end.

(** The data registers as [InitLCD] leaves them ("Set all characters
    off"), and with every segment lit. *)
Definition LCDDR_off : LCDDR :=
  mkLCDDR 0 0 0 0 0 0 0 0 0 0 0 0 0 0 0.

Definition LCDDR_lit : LCDDR :=
  mkLCDDR 0xFF 0xFF 0xFF 0xFF 0xFF 0xFF 0xFF 0xFF
          0xFF 0xFF 0xFF 0xFF 0xFF 0xFF 0xFF.

Definition lcd_off : lcd_state := mkLcd LCDDR_off [].
Definition lcd_lit : lcd_state := mkLcd LCDDR_lit [].

(** The characters and positions the driver accepts. *)
Definition valid_char (c : Z) : Prop :=
  (chr_0 <= c <= chr_9) \/ c = chr_space.

Definition valid_position (p : Z) : Prop := 2 <= p <= 7.

(** The values a C object of type [unsigned char] can hold. *)
Definition is_uchar (z : Z) : Prop := 0 <= z <= 255.

(* ================================================================== *)
(** ** dtoa.c *)

(** avr/io.h: number of the transfer-complete bit of SPSR.  The
    write-collision bit is tested in the source with the literal 6. *)
Definition SPIF : Z := 7.

(** Everything the driver does to the hardware, in program order. *)
Inductive io_event : Type :=
| Write_PORTB (v : Z)
| Read_SPSR (v : Z)
| Write_SPDR (v : Z)
| Serial_out (s : string).

(** The hardware as the driver sees it.  SPSR is set by the SPI unit, not
    by the program: [SPSR_stream n] is what the [n]-th read of the
    register returns, for whatever the unit does. *)
Record hw_state : Type := mkHw {
  PORTB : Z;
  SPSR_stream : nat -> Z;
  SPSR_reads : nat;
  trace : list io_event
}.

(** Hardware access that may spin: [None] is a loop that did not leave
    within the iterations allowed to it. *)
Definition io (A : Type) : Type := hw_state -> option (A * hw_state).

Definition ret {A : Type} (a : A) : io A := fun h => Some (a, h).

Definition bind {A B : Type} (m : io A) (k : A -> io B) : io B :=
  fun h =>
    match m h with
    | Some (a, h') => k a h'
    | None => None
    end.

Notation "x <- m ;; k" := (bind m (fun x => k))
  (at level 61, m at next level, right associativity).
Notation "m ;; k" := (bind m (fun _ => k))
  (at level 61, right associativity).

Definition log_event (e : io_event) (h : hw_state) : hw_state :=
  mkHw (PORTB h) (SPSR_stream h) (SPSR_reads h) (trace h ++ [e]).

(** A read of the volatile register SPSR. *)
Definition read_SPSR : io Z :=
  fun h =>
    let v := SPSR_stream h (SPSR_reads h) in
    Some (v, mkHw (PORTB h) (SPSR_stream h) (S (SPSR_reads h))
                  (trace h ++ [Read_SPSR v])).

(** [SPDR = v]. *)
Definition write_SPDR (v : Z) : io unit :=
  fun h => Some (tt, log_event (Write_SPDR v) h).

(** [PORTB = v]; the port is 8 bits wide. *)
Definition write_PORTB (v : Z) : io unit :=
  fun h =>
    let v := to_uint8 v in
    Some (tt, mkHw v (SPSR_stream h) (SPSR_reads h)
                   (trace h ++ [Write_PORTB v])).

(** Modelled from the spec: lib.h is not part of the sources at hand.
    [SET_BIT] and [CLEAR_BIT] raise and lower one line of a port, leaving
    the other lines as they are: [reg |= 1 << bit] and
    [reg &= ~(1 << bit)]. *)
Definition SET_BIT_PORTB (bit : Z) : io unit :=
  fun h => write_PORTB (Z.lor (PORTB h) (Z.shiftl 1 bit)) h.

Definition CLEAR_BIT_PORTB (bit : Z) : io unit :=
  fun h => write_PORTB (Z.land (PORTB h) (Z.lnot (Z.shiftl 1 bit))) h.

(** Modelled from the spec: serial.h is not part of the sources at hand.
    The logging collaborator receives the text; nothing comes back. *)
Definition SCIWriteString_P (s : string) : io unit :=
  fun h => Some (tt, log_event (Serial_out s) h).

(** ["Collision detected\n\r"] *)
Definition collision_text : string :=
  ("Collision detected" ++ String "010" (String "013" EmptyString))%string.

(** [if (SPSR & (1 << 6)) SCIWriteString_P(...)] *)
Definition check_collision : io unit :=
  status <- read_SPSR ;;
  if Z.land status (Z.shiftl 1 6) =? 0 then ret tt
  else SCIWriteString_P collision_text.

(** [while (!(SPSR & (1 << SPIF)));] with at most [fuel] reads of SPSR. *)
Fixpoint wait_SPIF (fuel : nat) : io unit :=
  match fuel with
  | O => fun _ => None
  | S fuel' =>
      status <- read_SPSR ;;
      if Z.land status (Z.shiftl 1 SPIF) =? 0 then wait_SPIF fuel'
      else ret tt
  end.

Section DtoA.

(** dtoa.h: the port B line wired to the chip select of the D/A. *)
Variable D2A_CS_BIT : Z.

(** [fuel] bounds each of the two wait loops separately. *)
Definition WriteDtoASample (fuel : nat) (Value : Z) : io unit :=
  (* 1. Shift input value left by 2 bits to match TLC5615 format *)
  let Value := to_uint16 (Z.shiftl Value 2) in
  (* 2. Enable the D/A *)
  CLEAR_BIT_PORTB D2A_CS_BIT ;;
  (* 3. Read status register and check for any errors. *)
  check_collision ;;
  (* 4. Write the MSB to the D/A *)
  write_SPDR (to_uint8 (Z.shiftr Value 8)) ;;
  (* 5. Wait for transmission to be complete *)
  wait_SPIF fuel ;;
  (* 6. Read status register for errors again *)
  check_collision ;;
  (* 7. Write the LSB to the D/A *)
  write_SPDR (to_uint8 Value) ;;
  (* 8. Wait for transmission to be complete *)
  wait_SPIF fuel ;;
  (* 9. Deselect D/A *)
  SET_BIT_PORTB D2A_CS_BIT.

End DtoA.

(** The SPI unit shows the transfer-complete flag in a status value. *)
Definition SPIF_set (status : Z) : bool :=
  negb (Z.land status (Z.shiftl 1 SPIF) =? 0).

(** The SPI unit shows the write-collision flag in a status value. *)
Definition WCOL_set (status : Z) : bool :=
  negb (Z.land status (Z.shiftl 1 6) =? 0).

(** The SPSR values returned by [n] consecutive reads starting with read
    number [from]. *)
Definition SPSR_values (stream : nat -> Z) (from n : nat) : list Z :=
  map stream (seq from n).

(** What the serial port receives after a status value was checked. *)
Definition collision_report (status : Z) : list io_event :=
  if WCOL_set status then [Serial_out collision_text] else [].

(** Read number [from + k] is the first from read number [from] on to
    show the transfer-complete flag. *)
Definition first_SPIF (stream : nat -> Z) (from k : nat) : Prop :=
  (forall i, (i < k)%nat -> SPIF_set (stream (from + i)%nat) = false) /\
  SPIF_set (stream (from + k)%nat) = true.

(** An SPI unit that never completes a transfer (it is disabled, or it
    lost its master role): SPSR reads 0 for ever. *)
Definition SPSR_never_complete : nat -> Z := fun _ => 0.

(** An SPI unit that completes each transfer at the first poll and shows
    a write collision once the second byte has gone out. *)
Definition SPSR_late_collision : nat -> Z :=
  fun n =>
    match n with
    | 0%nat => 0x00
    | 1%nat => 0x80
    | 2%nat => 0x80
    | _ => 0xC0
    end.

(** Port B after [CLEAR_BIT] and after [SET_BIT] of one line. *)
Definition line_low (bit portb : Z) : Z :=
  to_uint8 (Z.land portb (Z.lnot (Z.shiftl 1 bit))).

Definition line_high (bit portb : Z) : Z :=
  to_uint8 (Z.lor portb (Z.shiftl 1 bit)).

(** The events of one run of [WriteDtoASample] that starts with read
    number [r0] of SPSR, polls [S k1] times for the first byte and [S k2]
    times for the second: port B values [low] and [high], bytes [msb] and
    [lsb]. *)
Definition protocol_trace (low high msb lsb : Z) (stream : nat -> Z)
           (r0 k1 k2 : nat) : list io_event :=
  [Write_PORTB low]
  ++ Read_SPSR (stream r0) :: collision_report (stream r0)
  ++ [Write_SPDR msb]
  ++ map Read_SPSR (SPSR_values stream (r0 + 1) (S k1))
  ++ Read_SPSR (stream (r0 + k1 + 2)%nat)
     :: collision_report (stream (r0 + k1 + 2)%nat)
  ++ [Write_SPDR lsb]
  ++ map Read_SPSR (SPSR_values stream (r0 + k1 + 3) (S k2))
  ++ [Write_PORTB high].

(** Hardware for examples: port B all high, nothing done yet. *)
Definition hw_init (stream : nat -> Z) : hw_state :=
  mkHw 0xFF stream 0 [].

(* ================================================================== *)
(** ** Initialisation and read-back *)

(** [_BV(bit)] of avr-libc: the byte with only that bit set. *)
Definition _BV (bit : Z) : Z := Z.shiftl 1 bit.

(** Bit numbers of the LCD control registers, as the comments of
    [InitLCD] give them. *)
Definition LCDEN : Z := 7.
Definition LCDCS : Z := 7.
Definition LCDMUX1 : Z := 5.
Definition LCDMUX0 : Z := 4.
Definition LCDPM2 : Z := 2.
Definition LCDPM1 : Z := 1.
Definition LCDPM0 : Z := 0.
Definition LCDPS0 : Z := 4.
Definition LCDCC3 : Z := 3.

(** The LCD controller: its four control registers and the data
    registers. *)
Record lcd_controller : Type := mkLcdCtl {
  LCDCRA : Z;
  LCDCRB : Z;
  LCDFRR : Z;
  LCDCCR : Z;
  LCDDRs : LCDDR
}.

(** [InitLCD] stores to every register of the record; the fifteen stores
    [LCDDR0 = 0; ... LCDDR17 = 0;] are the fifteen fields of the data
    registers. *)
Definition InitLCD (l : lcd_controller) : lcd_controller :=
  mkLcdCtl
    (to_uint8 (_BV LCDEN))
    (to_uint8 (Z.lor (Z.lor (Z.lor (Z.lor (Z.lor
       (_BV LCDCS) (_BV LCDMUX1)) (_BV LCDMUX0))
       (_BV LCDPM2)) (_BV LCDPM1)) (_BV LCDPM0)))
    (to_uint8 (_BV LCDPS0))
    (to_uint8 (_BV LCDCC3))
    (mkLCDDR 0 0 0 0 0 0 0 0 0 0 0 0 0 0 0).

(** What a cell shows: the nibble it owns in each of the four registers of
    its group, lowest register first. *)
Definition cell_nibbles (p : Z) (r : LCDDR) : list Z :=
  map (fun x =>
         if p mod 2 =? 0 then Z.land (read x r) 0x0F
         else Z.shiftr (Z.land (read x r) 0xF0) 4)
      (group_registers (p / 2 - 1)).

(** The bytes stored to SPDR, oldest first. *)
Definition SPDR_writes (tr : list io_event) : list Z :=
  flat_map (fun e => match e with Write_SPDR v => [v] | _ => [] end) tr.

(** An SPI unit that shows every transfer complete at the first poll. *)
Definition SPSR_always_complete : nat -> Z := fun _ => 0x80.

(** The SPI unit and port B as [InitDtoA] sets them up: the control
    register, the value last stored to the status register, the direction
    register of port B, and the rest of the hardware. *)
Record spi_board : Type := mkBoard {
  SPCR : Z;
  SPSR_stored : Z;
  DDRB : Z;
  spi : hw_state
}.

Section Init.

(** avr/io.h: bit numbers of SPCR and SPSR; dtoa.h: the chip-select
    line. *)
Variables (MSTR SPR0 SPE SPI2X : Z).
Variable D2A_CS_BIT : Z.

(** [SET_BIT(DDRB, D2A_CS_BIT)] is the same macro as for port B; the
    closing [WriteDtoASample(0)] may spin, so the whole may. *)
Definition InitDtoA (fuel : nat) (b : spi_board) : option spi_board :=
  let spcr := to_uint8 (Z.lor (Z.lor (_BV MSTR) (_BV SPR0)) (_BV SPE)) in
  let spsr := to_uint8 (_BV SPI2X) in
  let ddrb := to_uint8 (Z.lor (DDRB b) (Z.shiftl 1 D2A_CS_BIT)) in
  match (SET_BIT_PORTB D2A_CS_BIT ;;
         WriteDtoASample D2A_CS_BIT fuel 0) (spi b) with
  | Some (_, h) => Some (mkBoard spcr spsr ddrb h)
  | None => None
  end.

End Init.

(* ================================================================== *)
(** * Properties *)

(** ** Nibble arithmetic *)

Section NibbleArithmetic.

Lemma testbit_0x0F (i : Z) : 0 <= i -> Z.testbit 0x0F i = (i <? 4).
Proof.
  intros Hi. change 0x0F with (Z.ones 4).
  now rewrite Z.testbit_ones_nonneg by lia.
Qed.

Lemma testbit_0xFF (i : Z) : 0 <= i -> Z.testbit 0xFF i = (i <? 8).
Proof.
  intros Hi. change 0xFF with (Z.ones 8).
  now rewrite Z.testbit_ones_nonneg by lia.
Qed.

Lemma testbit_0xF0 (i : Z) :
  0 <= i -> Z.testbit 0xF0 i = (4 <=? i) && (i <? 8).
Proof.
  intros Hi. change 0xF0 with (Z.shiftl (Z.ones 4) 4).
  rewrite Z.shiftl_spec by lia.
  destruct (Z.leb_spec 4 i).
  - rewrite Z.testbit_ones_nonneg by lia. simpl.
    destruct (Z.ltb_spec (i - 4) 4), (Z.ltb_spec i 8); auto; lia.
  - now rewrite Z.testbit_neg_r by lia.
Qed.

Lemma testbit_nibble (n i : Z) :
  0 <= n < 16 -> 4 <= i -> Z.testbit n i = false.
Proof.
  intros Hn Hi.
  rewrite <- (Z.mod_small n (2 ^ 4)) by (change (2 ^ 4) with 16; lia).
  apply Z.mod_pow2_bits_high. lia.
Qed.

Lemma to_uint8_land (z : Z) : to_uint8 z = Z.land z 0xFF.
Proof.
  unfold to_uint8. change 0xFF with (Z.ones 8).
  now rewrite Z.land_ones by lia.
Qed.

End NibbleArithmetic.

(** Bit-by-bit comparison of two expressions built from masks and
    nibbles. *)
Ltac nibble_bits :=
  intros;
  apply Z.bits_inj'; intros i Hi;
  repeat first
    [ rewrite to_uint8_land
    | rewrite Z.land_spec
    | rewrite Z.lor_spec
    | rewrite Z.shiftl_spec by lia
    | rewrite Z.shiftr_spec by lia
    | rewrite testbit_0x0F by lia
    | rewrite testbit_0xF0 by lia
    | rewrite testbit_0xFF by lia ];
  destruct (Z.leb_spec 4 i); destruct (Z.ltb_spec i 4);
  destruct (Z.ltb_spec i 8); try lia;
  repeat match goal with
    | H : 0 <= ?n < 16 |- context [Z.testbit ?n ?j] =>
        rewrite (testbit_nibble n j H) by lia
    | |- context [Z.testbit _ ?j] =>
        rewrite (Z.testbit_neg_r _ j) by lia
    end;
  simpl;
  rewrite ?andb_false_r, ?andb_true_r, ?orb_false_r, ?orb_false_l;
  try reflexivity.

Section NibbleWrites.

Variables (old n : Z).
Hypothesis Hn : 0 <= n < 16.

Lemma low_write_fits : to_uint8 (low_nibble_write old n) = low_nibble_write old n.
Proof. unfold low_nibble_write. revert Hn. nibble_bits. Qed.

Lemma low_write_owned : Z.land (low_nibble_write old n) 0x0F = n.
Proof. unfold low_nibble_write. revert Hn. nibble_bits. Qed.

Lemma low_write_other :
  Z.land (low_nibble_write old n) 0xF0 = Z.land old 0xF0.
Proof. unfold low_nibble_write. revert Hn. nibble_bits. Qed.

Lemma high_write_fits :
  to_uint8 (high_nibble_write old n) = high_nibble_write old n.
Proof. unfold high_nibble_write. revert Hn. nibble_bits. Qed.

Lemma high_write_owned : Z.shiftr (high_nibble_write old n) 4 = n.
Proof.
  unfold high_nibble_write. apply Z.bits_inj'; intros i Hi.
  rewrite Z.shiftr_spec, Z.lor_spec, Z.land_spec by lia.
  rewrite testbit_0x0F, Z.shiftl_spec by lia.
  replace (i + 4 - 4) with i by lia.
  destruct (Z.ltb_spec (i + 4) 4); try lia.
  now rewrite andb_false_r.
Qed.

Lemma high_write_other :
  Z.land (high_nibble_write old n) 0x0F = Z.land old 0x0F.
Proof. unfold high_nibble_write. revert Hn. nibble_bits. Qed.

End NibbleWrites.

Arguments to_uint8 : simpl never.
Arguments low_nibble_write : simpl never.
Arguments high_nibble_write : simpl never.

Section NibbleOverwrite.

Variables (old n1 n2 : Z).
Hypothesis Hn1 : 0 <= n1 < 16.

Lemma low_write_twice :
  low_nibble_write (to_uint8 (low_nibble_write old n1)) n2
  = low_nibble_write old n2.
Proof.
  rewrite low_write_fits by assumption.
  unfold low_nibble_write at 1. rewrite low_write_other by assumption.
  reflexivity.
Qed.

Lemma high_write_twice :
  high_nibble_write (to_uint8 (high_nibble_write old n1)) n2
  = high_nibble_write old n2.
Proof.
  rewrite high_write_fits by assumption.
  unfold high_nibble_write at 1. rewrite high_write_other by assumption.
  reflexivity.
Qed.

End NibbleOverwrite.

(** ** Conversions to [char] *)

Lemma to_char_small (sg : bool) (z : Z) : 0 <= z < 128 -> to_char sg z = z.
Proof.
  intros Hz. unfold to_char. rewrite Z.mod_small by lia.
  destruct (Z.leb_spec 128 z); try lia. now rewrite andb_false_r.
Qed.

Lemma to_char_large (sg : bool) (z : Z) :
  128 <= z <= 255 -> to_char sg z = z \/ to_char sg z = z - 256.
Proof.
  intros Hz. unfold to_char. rewrite Z.mod_small by lia.
  destruct (sg && (128 <=? z)); auto.
Qed.

(** ** The two resolvers *)

Lemma position_cases (p : Z) :
  valid_position p -> p = 2 \/ p = 3 \/ p = 4 \/ p = 5 \/ p = 6 \/ p = 7.
Proof. unfold valid_position. lia. Qed.

Lemma GetLCDDRx_valid (sg : bool) (p : Z) :
  valid_position p -> GetLCDDRx sg p = Ok (p / 2 - 1, p mod 2).
Proof.
  intros Hp. apply position_cases in Hp.
  destruct sg; repeat (destruct Hp as [-> | Hp]); subst; reflexivity.
Qed.

Lemma GetLCDDRx_invalid (sg : bool) (p : Z) :
  ~ valid_position p -> GetLCDDRx sg p = Err LCD_INVALID_POS.
Proof.
  unfold valid_position, GetLCDDRx. intros Hp.
  destruct (Z.geb_spec p 2), (Z.leb_spec p 7); simpl; auto; lia.
Qed.

Lemma GetLCDDRValues_valid (sg : bool) (c : Z) :
  valid_char c ->
  exists v0 v5 v10 v15,
    GetLCDDRValues sg c = Ok (v0, v5, v10, v15) /\
    0 <= v0 < 16 /\ 0 <= v5 < 16 /\ 0 <= v10 < 16 /\ 0 <= v15 < 16.
Proof.
  unfold valid_char, chr_0, chr_9, chr_space. intros [Hc | ->].
  - assert (Hd : c = 48 \/ c = 49 \/ c = 50 \/ c = 51 \/ c = 52 \/
                 c = 53 \/ c = 54 \/ c = 55 \/ c = 56 \/ c = 57) by lia.
    destruct sg; repeat (destruct Hd as [-> | Hd]); subst;
      (do 4 eexists; split; [vm_compute; reflexivity | lia]).
  - do 4 eexists. split; [reflexivity | lia].
Qed.

Lemma GetLCDDRValues_invalid (sg : bool) (c : Z) :
  ~ valid_char c -> GetLCDDRValues sg c = Err LCD_INVALID_CHAR.
Proof.
  unfold valid_char, GetLCDDRValues, chr_0, chr_9, chr_space. intros Hc.
  destruct (Z.geb_spec c 48), (Z.leb_spec c 57), (Z.eqb_spec c 32);
    simpl; auto; lia.
Qed.

(** ** LCDWrite *)

#[local] Arguments Z.land : simpl never.
#[local] Arguments Z.lor : simpl never.
#[local] Arguments Z.shiftl : simpl never.
#[local] Arguments Z.shiftr : simpl never.

(** Running [LCDWrite] on an accepted position: the position is one of six
    constants, and the two resolvers are replaced by their results. *)
Ltac run_LCDWrite Hp :=
  apply position_cases in Hp;
  repeat (destruct Hp as [-> | Hp]); subst;
  unfold LCDWrite;
  rewrite to_char_small by lia;
  rewrite GetLCDDRx_valid by (unfold valid_position; lia);
  cbn [result_bind];
  repeat match goal with
    | H : GetLCDDRValues _ _ = Ok _ |- _ => rewrite H; clear H
    end;
  cbn.

(** C1. A write of a valid character at a valid position replaces, in each
    of the four registers of the position's group, the nibble selected by
    the position's parity with the corresponding pattern nibble
    (low: [(old & 0xF0) | nibble]; high: [(old & 0x0F) | (nibble << 4)]),
    keeps the other nibble of these registers, keeps every other register,
    and reports no error. *)
Theorem LCDWrite_replaces_owned_nibble
  (sg : bool) (c p : Z) (s : lcd_state) :
  valid_char c -> valid_position p ->
  exists v0 v5 v10 v15,
    GetLCDDRValues sg c = Ok (v0, v5, v10, v15) /\
    let s' := LCDWrite sg c p s in
    let group := group_registers (p / 2 - 1) in
    Forall2
      (fun x v =>
         let old := read x (regs s) in
         let new := read x (regs s') in
         if p mod 2 =? 0 then
           new = Z.lor (Z.land old 0xF0) v /\
           Z.land new 0x0F = v /\
           Z.land new 0xF0 = Z.land old 0xF0
         else
           new = Z.lor (Z.land old 0x0F) (Z.shiftl v 4) /\
           Z.shiftr new 4 = v /\
           Z.land new 0x0F = Z.land old 0x0F)
      group [v0; v5; v10; v15] /\
    (forall x, ~ In x group -> read x (regs s') = read x (regs s)) /\
    reported s' = reported s.
Proof.
  intros Hc Hp.
  destruct (GetLCDDRValues_valid sg c Hc)
    as (v0 & v5 & v10 & v15 & Hv & H0 & H5 & H10 & H15).
  exists v0, v5, v10, v15. split; [exact Hv |].
  run_LCDWrite Hp.
  all: split; [| split; [| reflexivity]].
  all: try (repeat constructor; cbn;
            rewrite ?low_write_fits, ?high_write_fits by assumption;
            auto using low_write_owned, low_write_other,
                       high_write_owned, high_write_other).
  all: intros x Hx; destruct x; cbn in *; try reflexivity;
       exfalso; apply Hx; tauto.
Qed.

Lemma to_char_idempotent (sg : bool) (z : Z) :
  to_char sg (to_char sg z) = to_char sg z.
Proof.
  unfold to_char.
  pose proof (Z.mod_pos_bound z 256 ltac:(lia)) as Hu.
  destruct sg; simpl.
  - destruct (Z.leb_spec 128 (z mod 256)) as [Hz | Hz].
    + replace ((z mod 256 - 256) mod 256) with (z mod 256).
      * destruct (Z.leb_spec 128 (z mod 256)); [reflexivity | lia].
      * apply Z.mod_unique with (q := -1); lia.
    + rewrite Z.mod_mod by lia.
      destruct (Z.leb_spec 128 (z mod 256)); [lia | reflexivity].
  - now rewrite Z.mod_mod by lia.
Qed.

(** The position reaches the resolver only after its conversion to
    [char]. *)
Lemma LCDWrite_char_position (sg : bool) (c p : Z) (s : lcd_state) :
  LCDWrite sg c p s = LCDWrite sg c (to_char sg p) s.
Proof. unfold LCDWrite. now rewrite to_char_idempotent. Qed.

Lemma LCDWrite_invalid_position (sg : bool) (c p : Z) (s : lcd_state) :
  ~ valid_position (to_char sg p) ->
  LCDWrite sg c p s = ReportError LCD_INVALID_POS s.
Proof.
  intros Hp. unfold LCDWrite.
  now rewrite GetLCDDRx_invalid by assumption.
Qed.

Lemma LCDWrite_invalid_char (sg : bool) (c p : Z) (s : lcd_state) :
  valid_position (to_char sg p) -> ~ valid_char c ->
  LCDWrite sg c p s = ReportError LCD_INVALID_CHAR s.
Proof.
  intros Hp Hc. unfold LCDWrite.
  rewrite GetLCDDRx_valid by assumption. cbn [result_bind].
  now rewrite GetLCDDRValues_invalid by assumption.
Qed.

Lemma uchar_position (sg : bool) (p : Z) :
  is_uchar p -> (valid_position (to_char sg p) <-> valid_position p).
Proof.
  unfold is_uchar, valid_position. intros Hp.
  destruct (Z.lt_ge_cases p 128) as [Hs | Hl].
  - now rewrite to_char_small by lia.
  - destruct (to_char_large sg p ltac:(lia)) as [-> | ->]; lia.
Qed.

Lemma valid_position_dec (p : Z) : {valid_position p} + {~ valid_position p}.
Proof.
  unfold valid_position.
  destruct (Z_le_dec 2 p), (Z_le_dec p 7); (left; lia) || (right; lia).
Qed.

Lemma valid_char_dec (c : Z) : {valid_char c} + {~ valid_char c}.
Proof.
  unfold valid_char, chr_0, chr_9, chr_space.
  destruct (Z_le_dec 48 c), (Z_le_dec c 57), (Z.eq_dec c 32);
    (left; lia) || (right; lia).
Qed.

(** A second write to the same cell leaves nothing of the first. *)
Lemma LCDWrite_twice (sg : bool) (c1 c2 p : Z) (s : lcd_state) :
  valid_char c1 -> valid_char c2 -> valid_position p ->
  LCDWrite sg c2 p (LCDWrite sg c1 p s) = LCDWrite sg c2 p s.
Proof.
  intros Hc1 Hc2 Hp.
  destruct (GetLCDDRValues_valid sg c1 Hc1)
    as (a0 & a5 & a10 & a15 & Ha & A0 & A5 & A10 & A15).
  destruct (GetLCDDRValues_valid sg c2 Hc2)
    as (b0 & b5 & b10 & b15 & Hb & B0 & B5 & B10 & B15).
  apply position_cases in Hp.
  repeat (destruct Hp as [-> | Hp]); subst;
    unfold LCDWrite;
    rewrite to_char_small by lia;
    rewrite GetLCDDRx_valid by (unfold valid_position; lia);
    cbn [result_bind]; rewrite Ha, Hb; cbn;
    rewrite ?low_write_twice, ?high_write_twice by assumption;
    reflexivity.
Qed.

Lemma valid_char_digit_3 : valid_char 51.
Proof. left. unfold chr_0, chr_9. lia. Defined.

Lemma valid_char_digit_8 : valid_char 56.
Proof. left. unfold chr_0, chr_9. lia. Defined.

Lemma valid_char_blank : valid_char 32.
Proof. right. reflexivity. Defined.

Lemma valid_position_4 : valid_position 4.
Proof. unfold valid_position. lia. Defined.

(** The end-to-end example: '3' at position 4 goes to the low nibbles of
    LCDDR1, LCDDR6, LCDDR11 and LCDDR16; with every segment lit before,
    the registers outside the group still read 0xFF. *)
Lemma LCDWrite_replaces_owned_nibble_witness :
  valid_char 51 /\ valid_position 4 /\
  let s' := LCDWrite true 51 4 lcd_lit in
  map (fun x => read x (regs s')) [DR1; DR6; DR11; DR16]
  = [0xF1; 0xF1; 0xFB; 0xF1] /\
  (forall x, ~ In x [DR1; DR6; DR11; DR16] -> read x (regs s') = 0xFF) /\
  reported s' = [].
Proof.
  split; [exact valid_char_digit_3 |].
  split; [exact valid_position_4 |].
  destruct (LCDWrite_replaces_owned_nibble true 51 4 lcd_lit
              valid_char_digit_3 valid_position_4)
    as (v0 & v5 & v10 & v15 & Hv & Hgroup & Hframe & Hrep).
  vm_compute in Hv. injection Hv as <- <- <- <-.
  split; [| split].
  - inversion_clear Hgroup as [| ? ? ? ? [H1 _] Hg6].
    inversion_clear Hg6 as [| ? ? ? ? [H6 _] Hg11].
    inversion_clear Hg11 as [| ? ? ? ? [H11 _] Hg16].
    inversion_clear Hg16 as [| ? ? ? ? [H16 _] _].
    cbn [map]. rewrite H1, H6, H11, H16. reflexivity.
  - intros x Hx. rewrite (Hframe x Hx). destruct x; reflexivity.
  - exact Hrep.
Defined.

(** C2. For every digit the segment table yields the four nibbles, bits
    [3:0], [7:4], [11:8] and [15:12], of the digit's entry in the codebook
    1551, 0110, 1E11, 1B11, 0B50, 1B41, 1F40, 0111, 1F51, 0B51; for the
    blank it yields the nibbles of 0x0000. *)
Theorem GetLCDDRValues_codebook (sg : bool) (d : Z) :
  0 <= d <= 9 ->
  let pattern :=
    nth (Z.to_nat d)
        [0x1551; 0x0110; 0x1E11; 0x1B11; 0x0B50;
         0x1B41; 0x1F40; 0x0111; 0x1F51; 0x0B51] 0 in
  let bits_from k := Z.land (Z.shiftr pattern k) 0xF in
  0 <= pattern < 2 ^ 16 /\
  GetLCDDRValues sg (chr_0 + d)
  = Ok (bits_from 0, bits_from 4, bits_from 8, bits_from 12) /\
  GetLCDDRValues sg chr_space = Ok (0, 0, 0, 0).
Proof.
  intros Hd.
  assert (Hc : d = 0 \/ d = 1 \/ d = 2 \/ d = 3 \/ d = 4 \/
               d = 5 \/ d = 6 \/ d = 7 \/ d = 8 \/ d = 9) by lia.
  destruct sg; repeat (destruct Hc as [-> | Hc]); subst;
    (split; [vm_compute; split; [discriminate | reflexivity] |]);
    split; reflexivity.
Qed.

Lemma GetLCDDRValues_codebook_witness :
  0 <= 3 <= 9 /\
  GetLCDDRValues true (chr_0 + 3) = Ok (0x1, 0x1, 0xB, 0x1) /\
  GetLCDDRValues true chr_space = Ok (0, 0, 0, 0).
Proof.
  assert (H : 0 <= 3 <= 9) by lia.
  split; [exact H |].
  exact (proj2 (GetLCDDRValues_codebook true 3 H)).
Defined.

(** C3. A write with a position outside [2,7] or a character outside
    '0'..'9',' ' hands exactly one error to the error-reporting
    collaborator, the one for the position when the position is at fault
    and the one for the character otherwise, and leaves every data
    register as it was. *)
Theorem LCDWrite_rejects_invalid (sg : bool) (c p : Z) (s : lcd_state) :
  is_uchar p ->
  ~ valid_position p \/ ~ valid_char c ->
  exists e,
    LCDWrite sg c p s = mkLcd (regs s) (reported s ++ [e]) /\
    (~ valid_position p -> e = LCD_INVALID_POS) /\
    (valid_position p -> e = LCD_INVALID_CHAR).
Proof.
  intros Hu Hbad.
  destruct (valid_position_dec p) as [Hp | Hp].
  - destruct Hbad as [Hbad | Hc]; [contradiction |].
    exists LCD_INVALID_CHAR. split; [| split; [contradiction | reflexivity]].
    apply LCDWrite_invalid_char; [| assumption].
    now apply uchar_position.
  - exists LCD_INVALID_POS. split; [| split; [reflexivity | contradiction]].
    apply LCDWrite_invalid_position.
    now rewrite uchar_position.
Qed.

Lemma is_uchar_9 : is_uchar 9.
Proof. unfold is_uchar. lia. Defined.

Lemma is_uchar_200 : is_uchar 200.
Proof. unfold is_uchar. lia. Defined.

Lemma invalid_position_9 : ~ valid_position 9.
Proof. unfold valid_position. lia. Defined.

Lemma invalid_position_200 : ~ valid_position 200.
Proof. unfold valid_position. lia. Defined.

Lemma invalid_char_A : ~ valid_char 65.
Proof. unfold valid_char, chr_0, chr_9, chr_space. lia. Defined.

Lemma LCDWrite_rejects_invalid_witness :
  is_uchar 9 /\ (~ valid_position 9 \/ ~ valid_char 51) /\
  exists e,
    LCDWrite true 51 9 lcd_lit = mkLcd (regs lcd_lit) (reported lcd_lit ++ [e]) /\
    (~ valid_position 9 -> e = LCD_INVALID_POS) /\
    (valid_position 9 -> e = LCD_INVALID_CHAR).
Proof.
  split; [exact is_uchar_9 |].
  split; [left; exact invalid_position_9 |].
  exact (LCDWrite_rejects_invalid true 51 9 lcd_lit is_uchar_9
           (or_introl invalid_position_9)).
Defined.

(** C4. The position resolver accepts exactly the positions 2..7 and
    returns group [(p/2)-1] and nibble selector [p mod 2] for them; any
    other position yields [LCD_INVALID_POS] and no out-parameter is
    produced. *)
Theorem GetLCDDRx_resolves (sg : bool) (p : Z) :
  (2 <= p <= 7 -> GetLCDDRx sg p = Ok (p / 2 - 1, p mod 2)) /\
  (~ 2 <= p <= 7 -> GetLCDDRx sg p = Err LCD_INVALID_POS).
Proof.
  split; intros Hp.
  - now apply GetLCDDRx_valid.
  - now apply GetLCDDRx_invalid.
Qed.

Lemma GetLCDDRx_resolves_witness :
  (2 <= 5 <= 7 /\ GetLCDDRx true 5 = Ok (1, 1)) /\
  (~ 2 <= 9 <= 7 /\ GetLCDDRx true 9 = Err LCD_INVALID_POS).
Proof.
  assert (H5 : 2 <= 5 <= 7) by lia.
  assert (H9 : ~ 2 <= 9 <= 7) by lia.
  split; split; try assumption.
  - exact (proj1 (GetLCDDRx_resolves true 5) H5).
  - exact (proj2 (GetLCDDRx_resolves true 9) H9).
Defined.

(** C6. Two writes to one valid position with valid characters leave the
    registers as the second write alone would have: each owned nibble
    holds the second character's pattern nibble, with no bit of the first
    character's pattern left. *)
Theorem LCDWrite_overwrites (sg : bool) (c1 c2 p : Z) (s : lcd_state) :
  valid_char c1 -> valid_char c2 -> valid_position p ->
  let s2 := LCDWrite sg c2 p (LCDWrite sg c1 p s) in
  s2 = LCDWrite sg c2 p s /\
  exists v0 v5 v10 v15,
    GetLCDDRValues sg c2 = Ok (v0, v5, v10, v15) /\
    Forall2
      (fun x v =>
         (if p mod 2 =? 0 then Z.land (read x (regs s2)) 0x0F
          else Z.shiftr (read x (regs s2)) 4) = v)
      (group_registers (p / 2 - 1)) [v0; v5; v10; v15].
Proof.
  intros Hc1 Hc2 Hp. cbv zeta.
  rewrite LCDWrite_twice by assumption.
  split; [reflexivity |].
  destruct (GetLCDDRValues_valid sg c2 Hc2)
    as (v0 & v5 & v10 & v15 & Hv & H0 & H5 & H10 & H15).
  exists v0, v5, v10, v15. split; [exact Hv |].
  run_LCDWrite Hp;
    repeat constructor; cbn;
    rewrite ?low_write_fits, ?high_write_fits by assumption;
    auto using low_write_owned, high_write_owned.
Qed.

(** '8' at position 4 and then ' ' at position 4: the four nibbles of the
    cell read 0, and the neighbouring cell's nibbles are still lit. *)
Lemma LCDWrite_overwrites_witness :
  valid_char 56 /\ valid_char 32 /\ valid_position 4 /\
  let s2 := LCDWrite true 32 4 (LCDWrite true 56 4 lcd_lit) in
  s2 = LCDWrite true 32 4 lcd_lit /\
  map (fun x => Z.land (read x (regs s2)) 0x0F) [DR1; DR6; DR11; DR16]
  = [0; 0; 0; 0].
Proof.
  split; [exact valid_char_digit_8 |].
  split; [exact valid_char_blank |].
  split; [exact valid_position_4 |].
  destruct (LCDWrite_overwrites true 56 32 4 lcd_lit
              valid_char_digit_8 valid_char_blank valid_position_4)
    as (Heq & v0 & v5 & v10 & v15 & Hv & Hgroup).
  split; [exact Heq |].
  vm_compute in Hv. injection Hv as <- <- <- <-.
  inversion_clear Hgroup as [| ? ? ? ? H1 Hg6].
  inversion_clear Hg6 as [| ? ? ? ? H6 Hg11].
  inversion_clear Hg11 as [| ? ? ? ? H11 Hg16].
  inversion_clear Hg16 as [| ? ? ? ? H16 _].
  cbn [map].
  exact (f_equal2 cons H1 (f_equal2 cons H6
           (f_equal2 cons H11 (f_equal2 cons H16 eq_refl)))).
Defined.

(** C7. Writing the same character to the same position twice leaves the
    data registers as the first write left them, whatever the character,
    the position and the registers' contents. *)
Theorem LCDWrite_idempotent (sg : bool) (c p : Z) (s : lcd_state) :
  regs (LCDWrite sg c p (LCDWrite sg c p s)) = regs (LCDWrite sg c p s).
Proof.
  destruct (valid_position_dec (to_char sg p)) as [Hp | Hp].
  - destruct (valid_char_dec c) as [Hc | Hc].
    + rewrite !(LCDWrite_char_position sg c p).
      now rewrite LCDWrite_twice.
    + now rewrite !LCDWrite_invalid_char by assumption.
  - now rewrite !LCDWrite_invalid_position by assumption.
Qed.

(** C8. For a position in [2,7] the resolver succeeds with a group index
    among 0, 1, 2, and the [switch] on it does not take its default
    arm. *)
Theorem switch_default_unreachable (sg : bool) (p : Z) :
  valid_position p ->
  exists g n,
    GetLCDDRx sg p = Ok (g, n) /\
    (g = 0 \/ g = 1 \/ g = 2) /\
    switch_LCDDRx g <> case_default.
Proof.
  intros Hp. exists (p / 2 - 1), (p mod 2).
  split; [now apply GetLCDDRx_valid |].
  apply position_cases in Hp.
  repeat (destruct Hp as [-> | Hp]); subst;
    (split; [cbn; tauto | discriminate]).
Qed.

Lemma valid_position_7 : valid_position 7.
Proof. unfold valid_position. lia. Defined.

Lemma switch_default_unreachable_witness :
  valid_position 7 /\
  exists g n,
    GetLCDDRx false 7 = Ok (g, n) /\
    (g = 0 \/ g = 1 \/ g = 2) /\
    switch_LCDDRx g <> case_default.
Proof.
  split; [exact valid_position_7 |].
  exact (switch_default_unreachable false 7 valid_position_7).
Defined.

(** The resolver succeeds on no other position, so the default arm would
    need a resolver that returns outside its range. *)
Lemma GetLCDDRx_Ok_range (sg : bool) (p g n : Z) :
  GetLCDDRx sg p = Ok (g, n) ->
  valid_position p /\ switch_LCDDRx g <> case_default.
Proof.
  intros H. destruct (valid_position_dec p) as [Hp | Hp].
  - split; [assumption |].
    rewrite GetLCDDRx_valid in H by assumption.
    injection H as <- <-.
    apply position_cases in Hp.
    repeat (destruct Hp as [-> | Hp]); subst; discriminate.
  - rewrite GetLCDDRx_invalid in H by assumption. discriminate.
Qed.

(** C10. With both arguments invalid the position is checked first and
    the character is never looked at: the one error reported is
    [LCD_INVALID_POS]. *)
Theorem LCDWrite_position_error_first
  (sg : bool) (c p : Z) (s : lcd_state) :
  is_uchar p -> ~ valid_position p -> ~ valid_char c ->
  reported (LCDWrite sg c p s) = reported s ++ [LCD_INVALID_POS] /\
  ~ In LCD_INVALID_CHAR (skipn (List.length (reported s))
                               (reported (LCDWrite sg c p s))).
Proof.
  intros Hu Hp Hc.
  rewrite LCDWrite_invalid_position by now rewrite uchar_position.
  cbn [ReportError reported]. split; [reflexivity |].
  rewrite skipn_app, skipn_all, Nat.sub_diag. cbn.
  intros [H | []]. discriminate.
Qed.

Lemma LCDWrite_position_error_first_witness :
  is_uchar 200 /\ ~ valid_position 200 /\ ~ valid_char 65 /\
  reported (LCDWrite true 65 200 lcd_off) = [LCD_INVALID_POS].
Proof.
  split; [exact is_uchar_200 |].
  split; [exact invalid_position_200 |].
  split; [exact invalid_char_A |].
  exact (proj1 (LCDWrite_position_error_first true 65 200 lcd_off
                  is_uchar_200 invalid_position_200 invalid_char_A)).
Defined.

(* ================================================================== *)
(** ** WriteDtoASample *)

Section IoSteps.

Lemma bind_Some {A B : Type} (m : io A) (k : A -> io B)
      (h h' : hw_state) (a : A) :
  m h = Some (a, h') -> bind m k h = k a h'.
Proof. intros H. unfold bind. now rewrite H. Qed.

Lemma bind_Some_inv {A B : Type} (m : io A) (k : A -> io B)
      (h : hw_state) (r : B * hw_state) :
  bind m k h = Some r ->
  exists a h', m h = Some (a, h') /\ k a h' = Some r.
Proof.
  unfold bind. destruct (m h) as [[a h'] |]; [| discriminate].
  intros H. now exists a, h'.
Qed.

Lemma Some_hw_eq (p : Z) (stream : nat -> Z) (n n' : nat)
      (tr tr' : list io_event) :
  n = n' -> tr = tr' ->
  Some (tt, mkHw p stream n tr) = Some (tt, mkHw p stream n' tr').
Proof. now intros -> ->. Qed.

Lemma check_collision_run (h : hw_state) :
  check_collision h
  = Some (tt, mkHw (PORTB h) (SPSR_stream h) (S (SPSR_reads h))
                   (trace h ++ Read_SPSR (SPSR_stream h (SPSR_reads h))
                      :: collision_report (SPSR_stream h (SPSR_reads h)))).
Proof.
  unfold check_collision, bind, read_SPSR, collision_report, WCOL_set.
  destruct (Z.land _ _ =? 0); cbn.
  - reflexivity.
  - unfold SCIWriteString_P, log_event. cbn. now rewrite <- app_assoc.
Qed.

Lemma SPSR_values_S (stream : nat -> Z) (from n : nat) :
  SPSR_values stream from (S n)
  = stream from :: SPSR_values stream (S from) n.
Proof. reflexivity. Qed.

Lemma first_SPIF_next (stream : nat -> Z) (from k : nat) :
  first_SPIF stream from (S k) ->
  SPIF_set (stream from) = false /\ first_SPIF stream (S from) k.
Proof.
  intros [Hlow Hk]. split.
  - specialize (Hlow 0%nat). rewrite Nat.add_0_r in Hlow. apply Hlow. lia.
  - split.
    + intros i Hi. specialize (Hlow (S i)).
      rewrite Nat.add_succ_r in Hlow. apply Hlow. lia.
    + now rewrite Nat.add_succ_r in Hk.
Qed.

Lemma wait_SPIF_step (fuel : nat) (h : hw_state) :
  wait_SPIF (S fuel) h
  = let v := SPSR_stream h (SPSR_reads h) in
    let h' := mkHw (PORTB h) (SPSR_stream h) (S (SPSR_reads h))
                   (trace h ++ [Read_SPSR v]) in
    if SPIF_set v then Some (tt, h') else wait_SPIF fuel h'.
Proof.
  cbn [wait_SPIF]. unfold bind, read_SPSR, SPIF_set.
  now destruct (Z.land _ _ =? 0).
Qed.

(** The loop leaves at the first read that shows the flag. *)
Lemma wait_SPIF_run (k : nat) :
  forall (fuel : nat) (h : hw_state),
    first_SPIF (SPSR_stream h) (SPSR_reads h) k ->
    (k < fuel)%nat ->
    wait_SPIF fuel h
    = Some (tt, mkHw (PORTB h) (SPSR_stream h) (SPSR_reads h + S k)
                     (trace h ++ map Read_SPSR
                        (SPSR_values (SPSR_stream h) (SPSR_reads h) (S k)))).
Proof.
  induction k as [| k IH]; intros fuel h Hfirst Hfuel;
    (destruct fuel as [| fuel]; [lia |]); rewrite wait_SPIF_step; cbv zeta.
  - destruct Hfirst as [_ Hk]. rewrite Nat.add_0_r in Hk. rewrite Hk.
    now rewrite Nat.add_1_r.
  - apply first_SPIF_next in Hfirst. destruct Hfirst as [H0 Hnext].
    rewrite H0. rewrite IH by (cbn; auto; lia). cbn [PORTB SPSR_stream SPSR_reads trace].
    rewrite <- app_assoc.
    rewrite (SPSR_values_S _ (SPSR_reads h) (S k)).
    apply Some_hw_eq; [lia | reflexivity].
Qed.

(** A loop that left did so at such a read. *)
Lemma wait_SPIF_Some (fuel : nat) :
  forall (h : hw_state) (r : unit * hw_state),
    wait_SPIF fuel h = Some r ->
    exists k, (k < fuel)%nat /\ first_SPIF (SPSR_stream h) (SPSR_reads h) k.
Proof.
  induction fuel as [| fuel IH]; intros h r Hr; [discriminate |].
  rewrite wait_SPIF_step in Hr. cbv zeta in Hr.
  destruct (SPIF_set (SPSR_stream h (SPSR_reads h))) eqn:Hv.
  - exists 0%nat. split; [lia |]. split; [intros i Hi; lia |].
    now rewrite Nat.add_0_r.
  - apply IH in Hr. cbn [SPSR_stream SPSR_reads] in Hr.
    destruct Hr as (k & Hk & Hlow & Hset).
    exists (S k). split; [lia |]. split.
    + intros [| i] Hi.
      * now rewrite Nat.add_0_r.
      * rewrite Nat.add_succ_r. apply Hlow. lia.
    + now rewrite Nat.add_succ_r.
Qed.

(** Two reads cannot both be the first to show the flag. *)
Lemma first_SPIF_unique (stream : nat -> Z) (from k k' : nat) :
  first_SPIF stream from k -> first_SPIF stream from k' -> k = k'.
Proof.
  intros [Hlow Hk] [Hlow' Hk'].
  destruct (Nat.lt_trichotomy k k') as [Hlt | [Heq | Hgt]]; [| assumption |].
  - rewrite (Hlow' k Hlt) in Hk. discriminate.
  - rewrite (Hlow k' Hgt) in Hk'. discriminate.
Qed.

End IoSteps.

(** Both sides hold one list of events, grouped differently. *)
Ltac trace_assoc := repeat (progress (cbn [app]; rewrite <- ?app_assoc)).

Section SampleWrite.

Variables (bit : Z) (fuel : nat) (Value : Z) (h : hw_state).

(** Steps 1 to 4 always go through; the first wait loop starts after
    them. *)
Lemma WriteDtoASample_first_byte :
  WriteDtoASample bit fuel Value h
  = (wait_SPIF fuel ;;
     check_collision ;;
     write_SPDR (to_uint8 (to_uint16 (Z.shiftl Value 2))) ;;
     wait_SPIF fuel ;;
     SET_BIT_PORTB bit)
      (mkHw (line_low bit (PORTB h)) (SPSR_stream h) (S (SPSR_reads h))
            (trace h
             ++ [Write_PORTB (line_low bit (PORTB h))]
             ++ Read_SPSR (SPSR_stream h (SPSR_reads h))
                :: collision_report (SPSR_stream h (SPSR_reads h))
             ++ [Write_SPDR
                   (to_uint8 (Z.shiftr (to_uint16 (Z.shiftl Value 2)) 8))])).
Proof.
  unfold WriteDtoASample.
  erewrite bind_Some by reflexivity.
  erewrite bind_Some by apply check_collision_run.
  erewrite bind_Some by reflexivity.
  unfold log_event, line_low. cbn [PORTB SPSR_stream SPSR_reads trace].
  trace_assoc. reflexivity.
Qed.

(** With the first transfer complete, steps 6 and 7 go through; the
    second wait loop starts after them. *)
Lemma WriteDtoASample_second_byte (k1 : nat) :
  first_SPIF (SPSR_stream h) (SPSR_reads h + 1) k1 ->
  (k1 < fuel)%nat ->
  WriteDtoASample bit fuel Value h
  = (wait_SPIF fuel ;; SET_BIT_PORTB bit)
      (mkHw (line_low bit (PORTB h)) (SPSR_stream h)
            (SPSR_reads h + k1 + 3)
            (trace h
             ++ [Write_PORTB (line_low bit (PORTB h))]
             ++ Read_SPSR (SPSR_stream h (SPSR_reads h))
                :: collision_report (SPSR_stream h (SPSR_reads h))
             ++ [Write_SPDR
                   (to_uint8 (Z.shiftr (to_uint16 (Z.shiftl Value 2)) 8))]
             ++ map Read_SPSR
                  (SPSR_values (SPSR_stream h) (SPSR_reads h + 1) (S k1))
             ++ Read_SPSR (SPSR_stream h (SPSR_reads h + k1 + 2)%nat)
                :: collision_report
                     (SPSR_stream h (SPSR_reads h + k1 + 2)%nat)
             ++ [Write_SPDR (to_uint8 (to_uint16 (Z.shiftl Value 2)))])).
Proof.
  intros Hfirst Hfuel.
  rewrite WriteDtoASample_first_byte.
  rewrite Nat.add_1_r in *.
  erewrite bind_Some by (apply wait_SPIF_run with (k := k1); assumption).
  erewrite bind_Some by apply check_collision_run.
  erewrite bind_Some by reflexivity.
  unfold log_event. cbn [PORTB SPSR_stream SPSR_reads trace].
  replace (S (SPSR_reads h) + S k1)%nat with (SPSR_reads h + k1 + 2)%nat
    by lia.
  replace (S (SPSR_reads h + k1 + 2)) with (SPSR_reads h + k1 + 3)%nat
    by lia.
  trace_assoc. reflexivity.
Qed.

(** With both transfers complete the run returns, with the line high
    again. *)
Lemma WriteDtoASample_run (k1 k2 : nat) :
  first_SPIF (SPSR_stream h) (SPSR_reads h + 1) k1 ->
  first_SPIF (SPSR_stream h) (SPSR_reads h + k1 + 3) k2 ->
  (k1 < fuel)%nat -> (k2 < fuel)%nat ->
  WriteDtoASample bit fuel Value h
  = Some (tt,
          mkHw (line_high bit (line_low bit (PORTB h))) (SPSR_stream h)
               (SPSR_reads h + k1 + k2 + 4)
               (trace h
                ++ protocol_trace
                     (line_low bit (PORTB h))
                     (line_high bit (line_low bit (PORTB h)))
                     (to_uint8 (Z.shiftr (to_uint16 (Z.shiftl Value 2)) 8))
                     (to_uint8 (to_uint16 (Z.shiftl Value 2)))
                     (SPSR_stream h) (SPSR_reads h) k1 k2)).
Proof.
  intros Hfirst1 Hfirst2 Hfuel1 Hfuel2.
  rewrite (WriteDtoASample_second_byte k1) by assumption.
  erewrite bind_Some by (apply wait_SPIF_run with (k := k2); assumption).
  unfold SET_BIT_PORTB, write_PORTB, line_high, protocol_trace.
  cbn [PORTB SPSR_stream SPSR_reads trace].
  replace (SPSR_reads h + k1 + 3 + S k2)%nat
    with (SPSR_reads h + k1 + k2 + 4)%nat by lia.
  trace_assoc. reflexivity.
Qed.

(** A run that returns found both transfers complete. *)
Lemma WriteDtoASample_Some (r : unit * hw_state) :
  WriteDtoASample bit fuel Value h = Some r ->
  exists k1 k2,
    first_SPIF (SPSR_stream h) (SPSR_reads h + 1) k1 /\
    first_SPIF (SPSR_stream h) (SPSR_reads h + k1 + 3) k2 /\
    (k1 < fuel)%nat /\ (k2 < fuel)%nat.
Proof.
  intros Hr.
  pose proof Hr as Hr1. rewrite WriteDtoASample_first_byte in Hr1.
  apply bind_Some_inv in Hr1. destruct Hr1 as (a & h1 & Hwait1 & _).
  apply wait_SPIF_Some in Hwait1. destruct Hwait1 as (k1 & Hfuel1 & Hfirst1).
  cbn [SPSR_stream SPSR_reads] in Hfirst1.
  rewrite <- Nat.add_1_r in Hfirst1.
  rewrite (WriteDtoASample_second_byte k1) in Hr by assumption.
  apply bind_Some_inv in Hr. destruct Hr as (a' & h2 & Hwait2 & _).
  apply wait_SPIF_Some in Hwait2. destruct Hwait2 as (k2 & Hfuel2 & Hfirst2).
  cbn [SPSR_stream SPSR_reads] in Hfirst2.
  now exists k1, k2.
Qed.

End SampleWrite.

Section SelectLine.

Variables (bit portb : Z).
Hypothesis Hbit : 0 <= bit < 8.

Lemma line_low_clears : Z.testbit (line_low bit portb) bit = false.
Proof.
  unfold line_low, to_uint8. change 256 with (2 ^ 8).
  rewrite Z.mod_pow2_bits_low, Z.land_spec, Z.lnot_spec by lia.
  rewrite Z.shiftl_1_l, Z.pow2_bits_true by lia.
  apply andb_false_r.
Qed.

Lemma line_high_sets : Z.testbit (line_high bit portb) bit = true.
Proof.
  unfold line_high, to_uint8. change 256 with (2 ^ 8).
  rewrite Z.mod_pow2_bits_low, Z.lor_spec by lia.
  rewrite Z.shiftl_1_l, Z.pow2_bits_true by lia.
  apply orb_true_r.
Qed.

Lemma line_low_others (i : Z) :
  0 <= i < 8 -> i <> bit ->
  Z.testbit (line_low bit portb) i = Z.testbit portb i.
Proof.
  intros Hi Hne. unfold line_low, to_uint8. change 256 with (2 ^ 8).
  rewrite Z.mod_pow2_bits_low, Z.land_spec, Z.lnot_spec by lia.
  rewrite Z.shiftl_1_l, Z.pow2_bits_false by lia.
  apply andb_true_r.
Qed.

Lemma line_high_others (i : Z) :
  0 <= i < 8 -> i <> bit ->
  Z.testbit (line_high bit portb) i = Z.testbit portb i.
Proof.
  intros Hi Hne. unfold line_high, to_uint8. change 256 with (2 ^ 8).
  rewrite Z.mod_pow2_bits_low, Z.lor_spec by lia.
  rewrite Z.shiftl_1_l, Z.pow2_bits_false by lia.
  apply orb_false_r.
Qed.

End SelectLine.

Section SampleBytes.

Variable Value : Z.
Hypothesis Hsample : 0 <= Value < 2 ^ 12.

Lemma sample_shifted : to_uint16 (Z.shiftl Value 2) = Value * 4.
Proof.
  unfold to_uint16. rewrite Z.shiftl_mul_pow2 by lia.
  change (2 ^ 2) with 4. change (2 ^ 12) with 4096 in Hsample.
  apply Z.mod_small. lia.
Qed.

Lemma sample_MSB :
  to_uint8 (Z.shiftr (to_uint16 (Z.shiftl Value 2)) 8) = Value * 4 / 256.
Proof.
  rewrite sample_shifted. unfold to_uint8.
  rewrite Z.shiftr_div_pow2 by lia. change (2 ^ 8) with 256.
  change (2 ^ 12) with 4096 in Hsample.
  apply Z.mod_small. split.
  - apply Z.div_pos; lia.
  - apply Z.div_lt_upper_bound; lia.
Qed.

Lemma sample_LSB :
  to_uint8 (to_uint16 (Z.shiftl Value 2)) = (Value * 4) mod 256.
Proof. now rewrite sample_shifted. Qed.

End SampleBytes.

(** C5. For a 12-bit sample, and hardware that completes both transfers,
    a run of the sample write is exactly: chip select low; one status read
    with a collision report if the flag shows; the high byte of the sample
    shifted left by 2; status reads up to the first that shows transfer
    complete; one status read with a collision report if the flag shows;
    the low byte; status reads up to the first that shows transfer
    complete; chip select high.  A collision never stops the run, and no
    status check follows the second transfer. *)
Theorem WriteDtoASample_protocol
  (bit : Z) (fuel : nat) (Value : Z) (h : hw_state) (k1 k2 : nat) :
  0 <= Value < 2 ^ 12 ->
  0 <= bit < 8 ->
  first_SPIF (SPSR_stream h) (SPSR_reads h + 1) k1 ->
  first_SPIF (SPSR_stream h) (SPSR_reads h + k1 + 3) k2 ->
  (k1 < fuel)%nat -> (k2 < fuel)%nat ->
  let status n := SPSR_stream h (SPSR_reads h + n)%nat in
  let polls from n := map Read_SPSR (SPSR_values (SPSR_stream h) from n) in
  exists low high h',
    WriteDtoASample bit fuel Value h = Some (tt, h') /\
    trace h' =
      trace h
      ++ [Write_PORTB low]
      ++ [Read_SPSR (status 0%nat)] ++ collision_report (status 0%nat)
      ++ [Write_SPDR (Value * 4 / 256)]
      ++ polls (SPSR_reads h + 1)%nat (S k1)
      ++ [Read_SPSR (status (k1 + 2)%nat)]
      ++ collision_report (status (k1 + 2)%nat)
      ++ [Write_SPDR ((Value * 4) mod 256)]
      ++ polls (SPSR_reads h + k1 + 3)%nat (S k2)
      ++ [Write_PORTB high] /\
    Z.testbit low bit = false /\
    Z.testbit high bit = true /\
    (forall i, 0 <= i < 8 -> i <> bit ->
               Z.testbit low i = Z.testbit (PORTB h) i /\
               Z.testbit high i = Z.testbit (PORTB h) i) /\
    PORTB h' = high.
Proof.
  intros Hsample Hbit Hfirst1 Hfirst2 Hfuel1 Hfuel2. cbv zeta.
  exists (line_low bit (PORTB h)),
         (line_high bit (line_low bit (PORTB h))).
  eexists. split.
  { apply WriteDtoASample_run with (k1 := k1) (k2 := k2); assumption. }
  cbn [trace PORTB]. repeat split.
  - unfold protocol_trace.
    rewrite sample_MSB, sample_LSB by assumption.
    rewrite Nat.add_0_r, Nat.add_assoc. reflexivity.
  - now apply line_low_clears.
  - now apply line_high_sets.
  - now apply line_low_others.
  - rewrite line_high_others by assumption. now apply line_low_others.
Qed.

Lemma first_SPIF_at_once (stream : nat -> Z) (from : nat) :
  SPIF_set (stream from) = true -> first_SPIF stream from 0.
Proof.
  intros H. split.
  - intros i Hi. exfalso. exact (Nat.nlt_0_r i Hi).
  - rewrite Nat.add_0_r. exact H.
Defined.

Lemma sample_0x3FF : 0 <= 0x3FF < 2 ^ 12.
Proof. split; [discriminate | reflexivity]. Defined.

Lemma PB4 : 0 <= 4 < 8.
Proof. split; [discriminate | reflexivity]. Defined.

Lemma WriteDtoASample_protocol_witness :
  0 <= 0x3FF < 2 ^ 12 /\ 0 <= 4 < 8 /\
  first_SPIF SPSR_late_collision 1 0 /\
  first_SPIF SPSR_late_collision 3 0 /\
  exists h',
    WriteDtoASample 4 1 0x3FF (hw_init SPSR_late_collision) = Some (tt, h') /\
    Z.testbit (PORTB h') 4 = true.
Proof.
  split; [exact sample_0x3FF |].
  split; [exact PB4 |].
  split; [exact (first_SPIF_at_once SPSR_late_collision 1 eq_refl) |].
  split; [exact (first_SPIF_at_once SPSR_late_collision 3 eq_refl) |].
  destruct (WriteDtoASample_protocol 4 1 0x3FF (hw_init SPSR_late_collision)
              0 0 sample_0x3FF PB4
              (first_SPIF_at_once SPSR_late_collision 1 eq_refl)
              (first_SPIF_at_once SPSR_late_collision 3 eq_refl)
              (Nat.lt_0_succ 0) (Nat.lt_0_succ 0))
    as (low & high & h' & Hrun & _ & _ & Hhigh & _ & Hport).
  exists h'. split; [exact Hrun |].
  rewrite Hport. exact Hhigh.
Defined.

(** The status register shows a write collision once the second byte has
    gone out; the run reads that value (the last read, 0xC0), reports
    nothing and deselects. *)
Lemma WriteDtoASample_no_check_after_last_byte :
  exists h',
    WriteDtoASample 4 1 0x3FF (hw_init SPSR_late_collision) = Some (tt, h') /\
    trace h' =
      [ Write_PORTB 0xEF;
        Read_SPSR 0x00;
        Write_SPDR 0x0F;
        Read_SPSR 0x80;
        Read_SPSR 0x80;
        Write_SPDR 0xFC;
        Read_SPSR 0xC0;
        Write_PORTB 0xFF ] /\
    WCOL_set 0xC0 = true /\
    ~ In (Serial_out collision_text) (trace h').
Proof.
  eexists. split; [reflexivity |]. split; [reflexivity |].
  split; [reflexivity |].
  cbn. intuition discriminate.
Qed.

(** C9. The sample write returns exactly when the hardware shows the
    transfer-complete flag after the first byte and again after the
    second; each wait loop then makes as many reads as the hardware takes
    to raise the flag, and an allowance of fewer reads does not suffice:
    the loops have no bound of their own. *)
Theorem WriteDtoASample_returns_iff (bit Value : Z) (h : hw_state) :
  ((exists fuel r, WriteDtoASample bit fuel Value h = Some r) <->
   (exists k1 k2,
      first_SPIF (SPSR_stream h) (SPSR_reads h + 1) k1 /\
      first_SPIF (SPSR_stream h) (SPSR_reads h + k1 + 3) k2)) /\
  (forall k1 k2 fuel,
      first_SPIF (SPSR_stream h) (SPSR_reads h + 1) k1 ->
      first_SPIF (SPSR_stream h) (SPSR_reads h + k1 + 3) k2 ->
      ((exists h', WriteDtoASample bit fuel Value h = Some (tt, h') /\
                   SPSR_reads h' = (SPSR_reads h + 1 + S k1 + 1 + S k2)%nat)
       <-> (k1 < fuel)%nat /\ (k2 < fuel)%nat)).
Proof.
  split; [split |].
  - intros (fuel & r & Hr).
    destruct (WriteDtoASample_Some bit fuel Value h r Hr)
      as (k1 & k2 & H1 & H2 & _).
    now exists k1, k2.
  - intros (k1 & k2 & H1 & H2).
    exists (S (Nat.max k1 k2)). eexists.
    apply WriteDtoASample_run with (k1 := k1) (k2 := k2); auto; lia.
  - intros k1 k2 fuel H1 H2. split.
    + intros (h' & Hr & _).
      destruct (WriteDtoASample_Some bit fuel Value h _ Hr)
        as (k1' & k2' & H1' & H2' & Hf1 & Hf2).
      assert (k1' = k1) by (eapply first_SPIF_unique; eassumption).
      subst k1'.
      assert (k2' = k2) by (eapply first_SPIF_unique; eassumption).
      subst k2'. now split.
    + intros [Hf1 Hf2]. eexists. split.
      * apply WriteDtoASample_run with (k1 := k1) (k2 := k2); assumption.
      * cbn [SPSR_reads]. lia.
Qed.

Lemma WriteDtoASample_returns_iff_witness :
  exists fuel r,
    WriteDtoASample 4 fuel 0x3FF (hw_init SPSR_late_collision) = Some r.
Proof.
  apply (proj2 (proj1 (WriteDtoASample_returns_iff
                         4 0x3FF (hw_init SPSR_late_collision)))).
  exists 0%nat, 0%nat.
  split; apply first_SPIF_at_once; reflexivity.
Defined.

(** With an SPI unit that never shows the flag the first wait loop never
    leaves, however many reads it is allowed. *)
Lemma WriteDtoASample_spins_forever :
  ~ exists fuel r,
      WriteDtoASample 4 fuel 0 (hw_init SPSR_never_complete) = Some r.
Proof.
  intros (fuel & r & Hr).
  apply WriteDtoASample_Some in Hr.
  destruct Hr as (k1 & k2 & [_ Hset] & _).
  discriminate Hset.
Qed.

(* ================================================================== *)
(** * Further properties of lcd.c *)

Section NibblePairs.

Variables (old a b : Z).
Hypothesis Ha : 0 <= a < 16.
Hypothesis Hb : 0 <= b < 16.

Lemma high_write_owned_mask :
  Z.land (high_nibble_write old b) 0xF0 = Z.shiftl b 4.
Proof. unfold high_nibble_write. revert Hb. nibble_bits. Qed.

Lemma high_after_low :
  high_nibble_write (to_uint8 (low_nibble_write old a)) b
  = Z.lor a (Z.shiftl b 4).
Proof.
  rewrite low_write_fits by assumption.
  unfold high_nibble_write. now rewrite low_write_owned.
Qed.

Lemma low_after_high :
  low_nibble_write (to_uint8 (high_nibble_write old b)) a
  = Z.lor a (Z.shiftl b 4).
Proof.
  rewrite high_write_fits by assumption.
  unfold low_nibble_write. rewrite high_write_owned_mask.
  apply Z.lor_comm.
Qed.

Lemma nibble_pair_value : to_uint8 (Z.lor a (Z.shiftl b 4)) = a + 16 * b.
Proof.
  assert (Hdisjoint : Z.land a (Z.shiftl b 4) = 0).
  { apply Z.bits_inj'; intros i Hi.
    rewrite Z.land_spec, Z.bits_0, Z.shiftl_spec by lia.
    destruct (Z.lt_ge_cases i 4).
    - rewrite (Z.testbit_neg_r b) by lia. apply andb_false_r.
    - now rewrite (testbit_nibble a i) by (assumption || lia). }
  pose proof (Z.add_lor_land a (Z.shiftl b 4)) as Hadd.
  rewrite Hdisjoint, Z.add_0_r in Hadd. rewrite Hadd.
  rewrite Z.shiftl_mul_pow2 by lia. change (2 ^ 4) with 16.
  unfold to_uint8. rewrite Z.mod_small by lia. lia.
Qed.

End NibblePairs.

Lemma char_cases (c : Z) :
  valid_char c ->
  c = 48 \/ c = 49 \/ c = 50 \/ c = 51 \/ c = 52 \/ c = 53 \/
  c = 54 \/ c = 55 \/ c = 56 \/ c = 57 \/ c = 32.
Proof. unfold valid_char, chr_0, chr_9, chr_space. lia. Qed.

Lemma GetLCDDRValues_Ok_valid (sg : bool) (c : Z) (v : Z * Z * Z * Z) :
  GetLCDDRValues sg c = Ok v -> valid_char c.
Proof.
  intros H. destruct (valid_char_dec c) as [Hc | Hc]; [assumption |].
  rewrite GetLCDDRValues_invalid in H by assumption. discriminate.
Qed.

(** X1. Two characters with the same segment nibbles are the same
    character: the ten digits and the blank all look different. *)
Theorem GetLCDDRValues_injective
  (sg : bool) (c1 c2 : Z) (v : Z * Z * Z * Z) :
  GetLCDDRValues sg c1 = Ok v -> GetLCDDRValues sg c2 = Ok v -> c1 = c2.
Proof.
  intros H1 H2.
  pose proof (char_cases c1 (GetLCDDRValues_Ok_valid sg c1 v H1)) as Hc1.
  pose proof (char_cases c2 (GetLCDDRValues_Ok_valid sg c2 v H2)) as Hc2.
  rewrite <- H2 in H1. clear H2.
  destruct sg;
    repeat (destruct Hc1 as [-> | Hc1]); subst;
    repeat (destruct Hc2 as [-> | Hc2]); subst;
    first [reflexivity | vm_compute in H1; discriminate H1].
Qed.

Lemma GetLCDDRValues_injective_witness :
  GetLCDDRValues false 56 = Ok (1, 5, 15, 1) /\ 56 = 56.
Proof.
  split; [reflexivity |].
  exact (GetLCDDRValues_injective false 56 56 (1, 5, 15, 1)
           eq_refl eq_refl).
Defined.

(** X2. The segment table succeeds exactly on the ten digits and the
    blank, and each of the four values it returns then fits a nibble. *)
Theorem GetLCDDRValues_Ok_iff_valid (sg : bool) (c : Z) :
  (valid_char c <-> exists v, GetLCDDRValues sg c = Ok v) /\
  (forall v0 v5 v10 v15,
      GetLCDDRValues sg c = Ok (v0, v5, v10, v15) ->
      0 <= v0 < 16 /\ 0 <= v5 < 16 /\ 0 <= v10 < 16 /\ 0 <= v15 < 16).
Proof.
  split; [split |].
  - intros Hc.
    destruct (GetLCDDRValues_valid sg c Hc) as (v0 & v5 & v10 & v15 & Hv & _).
    now exists (v0, v5, v10, v15).
  - intros [v Hv]. exact (GetLCDDRValues_Ok_valid sg c v Hv).
  - intros v0 v5 v10 v15 Hv.
    destruct (GetLCDDRValues_valid sg c (GetLCDDRValues_Ok_valid sg c _ Hv))
      as (w0 & w5 & w10 & w15 & Hw & Hbounds).
    rewrite Hw in Hv. injection Hv as <- <- <- <-. exact Hbounds.
Qed.

(** X3. A resolved position can be read back from its group and nibble
    selector: [p = 2 * (group + 1) + nibble] with the group among 0..2 and
    the selector 0 or 1, so no two positions share a nibble. *)
Theorem GetLCDDRx_round_trip (sg : bool) (p g n : Z) :
  GetLCDDRx sg p = Ok (g, n) ->
  p = 2 * (g + 1) + n /\ 0 <= g <= 2 /\ 0 <= n <= 1.
Proof.
  intros H. destruct (valid_position_dec p) as [Hp | Hp].
  - rewrite GetLCDDRx_valid in H by assumption.
    injection H as <- <-. apply position_cases in Hp.
    repeat (destruct Hp as [-> | Hp]); subst; cbn; lia.
  - rewrite GetLCDDRx_invalid in H by assumption. discriminate.
Qed.

Lemma GetLCDDRx_round_trip_witness :
  GetLCDDRx true 5 = Ok (1, 1) /\ 5 = 2 * (1 + 1) + 1.
Proof.
  split; [reflexivity |].
  exact (proj1 (GetLCDDRx_round_trip true 5 1 1 eq_refl)).
Defined.

(** One level of [LCDWrite] at constant valid positions, with the segment
    values known. *)
Ltac resolve_LCDWrite Ha Hb :=
  unfold LCDWrite;
  rewrite !to_char_small by lia;
  rewrite !GetLCDDRx_valid by (unfold valid_position; lia);
  cbn [result_bind]; rewrite ?Ha, ?Hb; cbn.

(** X4. Writes to two different positions commute: the registers end up
    the same whichever cell is written first. *)
Theorem LCDWrite_commutes
  (sg : bool) (c1 c2 p1 p2 : Z) (s : lcd_state) :
  valid_char c1 -> valid_char c2 ->
  valid_position p1 -> valid_position p2 -> p1 <> p2 ->
  LCDWrite sg c1 p1 (LCDWrite sg c2 p2 s)
  = LCDWrite sg c2 p2 (LCDWrite sg c1 p1 s).
Proof.
  intros Hc1 Hc2 Hp1 Hp2 Hne.
  destruct (GetLCDDRValues_valid sg c1 Hc1)
    as (a0 & a5 & a10 & a15 & Ha & A0 & A5 & A10 & A15).
  destruct (GetLCDDRValues_valid sg c2 Hc2)
    as (b0 & b5 & b10 & b15 & Hb & B0 & B5 & B10 & B15).
  apply position_cases in Hp1. apply position_cases in Hp2.
  repeat (destruct Hp1 as [-> | Hp1]); subst;
    repeat (destruct Hp2 as [-> | Hp2]); subst;
    try (exfalso; apply Hne; reflexivity);
    match goal with
    | |- LCDWrite _ _ _ ?t1 = LCDWrite _ _ _ ?t2 =>
        remember t1 as s1 eqn:E1; remember t2 as s2 eqn:E2
    end;
    resolve_LCDWrite Ha Hb; subst s1 s2;
    resolve_LCDWrite Ha Hb;
    rewrite ?high_after_low, ?low_after_high by assumption;
    reflexivity.
Qed.

Lemma valid_position_5 : valid_position 5.
Proof. unfold valid_position. lia. Defined.

Lemma position_4_not_5 : 4 <> 5.
Proof. discriminate. Defined.

(** '3' at position 4 and '8' at position 5 share LCDDR1, LCDDR6, LCDDR11
    and LCDDR16. *)
Lemma LCDWrite_commutes_witness :
  valid_char 51 /\ valid_char 56 /\
  valid_position 4 /\ valid_position 5 /\ 4 <> 5 /\
  LCDWrite true 51 4 (LCDWrite true 56 5 lcd_lit)
  = LCDWrite true 56 5 (LCDWrite true 51 4 lcd_lit).
Proof.
  repeat (split; [first [ exact valid_char_digit_3 | exact valid_char_digit_8
                        | exact valid_position_4 | exact valid_position_5
                        | exact position_4_not_5 ] |]).
  exact (LCDWrite_commutes true 51 56 4 5 lcd_lit
           valid_char_digit_3 valid_char_digit_8
           valid_position_4 valid_position_5 position_4_not_5).
Defined.

(** X5. Once both cells of a group are written, each of the group's four
    registers holds exactly the even cell's nibble below the odd cell's
    nibble, whatever the registers held before. *)
Theorem LCDWrite_pair_fills_group
  (sg : bool) (ce co g : Z) (s : lcd_state) :
  valid_char ce -> valid_char co -> 0 <= g <= 2 ->
  exists e0 e5 e10 e15 o0 o5 o10 o15,
    GetLCDDRValues sg ce = Ok (e0, e5, e10, e15) /\
    GetLCDDRValues sg co = Ok (o0, o5, o10, o15) /\
    map (fun x =>
           read x (regs (LCDWrite sg co (2 * g + 3)
                           (LCDWrite sg ce (2 * g + 2) s))))
        (group_registers g)
    = [e0 + 16 * o0; e5 + 16 * o5; e10 + 16 * o10; e15 + 16 * o15].
Proof.
  intros Hce Hco Hg.
  destruct (GetLCDDRValues_valid sg ce Hce)
    as (e0 & e5 & e10 & e15 & He & E0 & E5 & E10 & E15).
  destruct (GetLCDDRValues_valid sg co Hco)
    as (o0 & o5 & o10 & o15 & Ho & O0 & O5 & O10 & O15).
  exists e0, e5, e10, e15, o0, o5, o10, o15.
  split; [exact He |]. split; [exact Ho |].
  assert (Hcases : g = 0 \/ g = 1 \/ g = 2) by lia.
  destruct Hcases as [-> | [-> | ->]];
    match goal with
    | |- context [LCDWrite _ _ ?po (LCDWrite _ _ ?pe _)] =>
        let vo := eval compute in po in
        let ve := eval compute in pe in
        change po with vo; change pe with ve
    end;
    match goal with
    | |- context [LCDWrite _ _ _ (LCDWrite ?a ?b ?c ?d)] =>
        remember (LCDWrite a b c d) as s1 eqn:E1
    end;
    resolve_LCDWrite He Ho; subst s1;
    resolve_LCDWrite He Ho;
    rewrite !high_after_low by assumption;
    rewrite !nibble_pair_value by assumption;
    reflexivity.
Qed.

Lemma group_1 : 0 <= 1 <= 2.
Proof. split; discriminate. Defined.

(** '3' at position 4 and '8' at position 5: LCDDR1, LCDDR6, LCDDR11 and
    LCDDR16 read 0x11, 0x51, 0xFB, 0x11. *)
Lemma LCDWrite_pair_fills_group_witness :
  valid_char 51 /\ valid_char 56 /\ 0 <= 1 <= 2 /\
  map (fun x =>
         read x (regs (LCDWrite true 56 (2 * 1 + 3)
                         (LCDWrite true 51 (2 * 1 + 2) lcd_lit))))
      (group_registers 1)
  = [0x11; 0x51; 0xFB; 0x11].
Proof.
  split; [exact valid_char_digit_3 |].
  split; [exact valid_char_digit_8 |].
  split; [exact group_1 |].
  destruct (LCDWrite_pair_fills_group true 51 56 1 lcd_lit
              valid_char_digit_3 valid_char_digit_8 group_1)
    as (e0 & e5 & e10 & e15 & o0 & o5 & o10 & o15 & He & Ho & Hregs).
  vm_compute in He. injection He as <- <- <- <-.
  vm_compute in Ho. injection Ho as <- <- <- <-.
  exact Hregs.
Defined.





Lemma shiftr_shiftl_4 (n : Z) : Z.shiftr (Z.shiftl n 4) 4 = n.
Proof.
  rewrite Z.shiftr_shiftl_l by lia. change (4 - 4) with 0.
  apply Z.shiftl_0_r.
Qed.

Ltac cell_facts :=
  rewrite ?low_write_fits, ?high_write_fits by assumption;
  rewrite ?low_write_owned, ?low_write_other,
          ?high_write_owned_mask, ?high_write_other by assumption;
  rewrite ?shiftr_shiftl_4;
  reflexivity.

(** X7. What a cell shows can be read back and belongs to that cell
    alone: after a valid write the written cell shows the character's four
    nibbles, and every other cell shows what it showed before. *)
Theorem LCDWrite_cell_read_back
  (sg : bool) (c p : Z) (s : lcd_state) :
  valid_char c -> valid_position p ->
  exists v0 v5 v10 v15,
    GetLCDDRValues sg c = Ok (v0, v5, v10, v15) /\
    cell_nibbles p (regs (LCDWrite sg c p s)) = [v0; v5; v10; v15] /\
    (forall q, valid_position q -> q <> p ->
               cell_nibbles q (regs (LCDWrite sg c p s))
               = cell_nibbles q (regs s)).
Proof.
  intros Hc Hp.
  destruct (GetLCDDRValues_valid sg c Hc)
    as (v0 & v5 & v10 & v15 & Hv & H0 & H5 & H10 & H15).
  exists v0, v5, v10, v15. split; [exact Hv |].
  apply position_cases in Hp.
  repeat (destruct Hp as [-> | Hp]); subst;
    resolve_LCDWrite Hv Hv;
    (split;
     [ unfold cell_nibbles; cbn; cell_facts
     | intros q Hq Hne; apply position_cases in Hq;
       repeat (destruct Hq as [-> | Hq]); subst;
       try (exfalso; apply Hne; reflexivity);
       unfold cell_nibbles; cbn; cell_facts ]).
Qed.

(** '3' at position 4 of a fully lit display: cell 4 shows 1, 1, B, 1 and
    its neighbour, cell 5, is still fully lit. *)
Lemma LCDWrite_cell_read_back_witness :
  valid_char 51 /\ valid_position 4 /\
  cell_nibbles 4 (regs (LCDWrite true 51 4 lcd_lit)) = [0x1; 0x1; 0xB; 0x1] /\
  cell_nibbles 5 (regs (LCDWrite true 51 4 lcd_lit)) = [0xF; 0xF; 0xF; 0xF].
Proof.
  split; [exact valid_char_digit_3 |].
  split; [exact valid_position_4 |].
  destruct (LCDWrite_cell_read_back true 51 4 lcd_lit
              valid_char_digit_3 valid_position_4)
    as (v0 & v5 & v10 & v15 & Hv & Hown & Hother).
  vm_compute in Hv. injection Hv as <- <- <- <-.
  split; [exact Hown |].
  rewrite (Hother 5 valid_position_5 (fun H => position_4_not_5 (eq_sym H))).
  reflexivity.
Defined.

(** X8. [InitLCD] blanks the display whatever it showed: every cell then
    shows the blank's nibbles, and writing a blank to any cell changes no
    register. *)
Theorem InitLCD_all_blank
  (sg : bool) (l : lcd_controller) (errors : list eErrorType) (p : Z) :
  valid_position p ->
  GetLCDDRValues sg chr_space = Ok (0, 0, 0, 0) /\
  cell_nibbles p (LCDDRs (InitLCD l)) = [0; 0; 0; 0] /\
  LCDWrite sg chr_space p (mkLcd (LCDDRs (InitLCD l)) errors)
  = mkLcd (LCDDRs (InitLCD l)) errors.
Proof.
  intros Hp. split; [reflexivity |].
  apply position_cases in Hp.
  repeat (destruct Hp as [-> | Hp]); subst;
    (split; [reflexivity |]);
    unfold LCDWrite;
    rewrite to_char_small by lia;
    rewrite GetLCDDRx_valid by (unfold valid_position; lia);
    reflexivity.
Qed.

Lemma InitLCD_all_blank_witness :
  valid_position 7 /\
  LCDWrite true chr_space 7
    (mkLcd (LCDDRs (InitLCD (mkLcdCtl 0 0 0 0 LCDDR_lit))) [])
  = lcd_off.
Proof.
  split; [exact valid_position_7 |].
  exact (proj2 (proj2 (InitLCD_all_blank true (mkLcdCtl 0 0 0 0 LCDDR_lit)
                         [] 7 valid_position_7))).
Defined.

Lemma app_one_neq {A : Type} (l : list A) (a : A) : l ++ [a] <> l.
Proof.
  intros H. apply (f_equal (@List.length A)) in H.
  rewrite length_app in H. cbn in H. lia.
Qed.

(** X9. For a position of type [unsigned char], a call reports an error
    exactly when the position or the character is invalid; a call with
    valid arguments reports nothing. *)
Theorem LCDWrite_reports_iff_invalid
  (sg : bool) (c p : Z) (s : lcd_state) :
  is_uchar p ->
  (reported (LCDWrite sg c p s) = reported s
   <-> valid_position p /\ valid_char c).
Proof.
  intros Hu. split.
  - intros Hsame.
    destruct (valid_position_dec p) as [Hp | Hp].
    + split; [assumption |].
      destruct (valid_char_dec c) as [Hc | Hc]; [assumption |].
      rewrite LCDWrite_invalid_char in Hsame
        by (try apply uchar_position; assumption).
      cbn in Hsame. now apply app_one_neq in Hsame.
    + rewrite LCDWrite_invalid_position in Hsame
        by (rewrite uchar_position; assumption).
      cbn in Hsame. now apply app_one_neq in Hsame.
  - intros [Hp Hc].
    destruct (GetLCDDRValues_valid sg c Hc)
      as (v0 & v5 & v10 & v15 & Hv & _).
    apply position_cases in Hp.
    repeat (destruct Hp as [-> | Hp]); subst;
      resolve_LCDWrite Hv Hv; reflexivity.
Qed.

Lemma is_uchar_4 : is_uchar 4.
Proof. unfold is_uchar. lia. Defined.

Lemma LCDWrite_reports_iff_invalid_witness :
  is_uchar 4 /\ reported (LCDWrite true 51 4 lcd_lit) = reported lcd_lit.
Proof.
  split; [exact is_uchar_4 |].
  exact (proj2 (LCDWrite_reports_iff_invalid true 51 4 lcd_lit is_uchar_4)
           (conj valid_position_4 valid_char_digit_3)).
Defined.

(* ================================================================== *)
(** * Further properties of dtoa.c *)

Section BytesSent.

Lemma SPDR_writes_app (tr1 tr2 : list io_event) :
  SPDR_writes (tr1 ++ tr2) = SPDR_writes tr1 ++ SPDR_writes tr2.
Proof. apply flat_map_app. Qed.

Lemma SPDR_writes_reads (l : list Z) : SPDR_writes (map Read_SPSR l) = [].
Proof. induction l as [| v l IH]; [reflexivity | exact IH]. Qed.

Lemma SPDR_writes_report (status : Z) :
  SPDR_writes (collision_report status) = [].
Proof. unfold collision_report. now destruct (WCOL_set status). Qed.

Lemma SPDR_writes_protocol (low high msb lsb : Z) (stream : nat -> Z)
      (r0 k1 k2 : nat) :
  SPDR_writes (protocol_trace low high msb lsb stream r0 k1 k2) = [msb; lsb].
Proof.
  unfold protocol_trace.
  repeat (rewrite SPDR_writes_app
          || rewrite SPDR_writes_reads
          || rewrite SPDR_writes_report
          || rewrite (app_comm_cons _ _ (Read_SPSR _))
          || cbn [SPDR_writes flat_map app]).
  reflexivity.
Qed.

Lemma sample_word (Value : Z) :
  let w := to_uint16 (Z.shiftl Value 2) in
  w = (Value * 4) mod 65536 /\
  to_uint8 (Z.shiftr w 8) * 256 + to_uint8 w = w /\
  0 <= to_uint8 (Z.shiftr w 8) <= 255 /\ 0 <= to_uint8 w <= 255.
Proof.
  cbv zeta. unfold to_uint16. rewrite Z.shiftl_mul_pow2 by lia.
  change (2 ^ 2) with 4.
  pose proof (Z.mod_pos_bound (Value * 4) 65536 ltac:(lia)) as Hw.
  set (w := (Value * 4) mod 65536) in *.
  rewrite Z.shiftr_div_pow2 by lia. change (2 ^ 8) with 256.
  assert (Hhigh : 0 <= w / 256 < 256).
  { split; [apply Z.div_pos | apply Z.div_lt_upper_bound]; lia. }
  unfold to_uint8. rewrite (Z.mod_small (w / 256)) by assumption.
  pose proof (Z.div_mod w 256 ltac:(lia)).
  pose proof (Z.mod_pos_bound w 256 ltac:(lia)).
  repeat split; lia.
Qed.

End BytesSent.

(** X10. Whatever the sample, a run on hardware that completes both
    transfers stores exactly two bytes to SPDR; they are the high and the
    low byte of the sample times 4, cut to 16 bits, so a sample below 2^14
    can be read back from them. *)
Theorem WriteDtoASample_bytes
  (bit : Z) (fuel : nat) (Value : Z) (h : hw_state) (k1 k2 : nat) :
  first_SPIF (SPSR_stream h) (SPSR_reads h + 1) k1 ->
  first_SPIF (SPSR_stream h) (SPSR_reads h + k1 + 3) k2 ->
  (k1 < fuel)%nat -> (k2 < fuel)%nat ->
  exists msb lsb h',
    WriteDtoASample bit fuel Value h = Some (tt, h') /\
    SPDR_writes (trace h') = SPDR_writes (trace h) ++ [msb; lsb] /\
    0 <= msb <= 255 /\ 0 <= lsb <= 255 /\
    msb * 256 + lsb = (Value * 4) mod 65536 /\
    (0 <= Value < 2 ^ 14 -> (msb * 256 + lsb) / 4 = Value).
Proof.
  intros Hfirst1 Hfirst2 Hfuel1 Hfuel2.
  destruct (sample_word Value) as (Hw & Hsplit & Hmsb & Hlsb).
  do 3 eexists. split.
  { apply WriteDtoASample_run with (k1 := k1) (k2 := k2); assumption. }
  cbn [trace]. rewrite SPDR_writes_app, SPDR_writes_protocol.
  split; [reflexivity |].
  split; [exact Hmsb |]. split; [exact Hlsb |].
  rewrite Hsplit, Hw. split; [reflexivity |].
  intros Hv. change (2 ^ 14) with 16384 in Hv.
  rewrite Z.mod_small by lia. apply Z.div_mul. lia.
Qed.

Lemma WriteDtoASample_bytes_witness :
  first_SPIF SPSR_late_collision 1 0 /\
  first_SPIF SPSR_late_collision 3 0 /\
  exists msb lsb h',
    WriteDtoASample 4 1 0x3FF (hw_init SPSR_late_collision) = Some (tt, h') /\
    SPDR_writes (trace h') = [msb; lsb] /\
    msb * 256 + lsb = 0xFFC.
Proof.
  split; [exact (first_SPIF_at_once SPSR_late_collision 1 eq_refl) |].
  split; [exact (first_SPIF_at_once SPSR_late_collision 3 eq_refl) |].
  destruct (WriteDtoASample_bytes 4 1 0x3FF (hw_init SPSR_late_collision)
              0 0
              (first_SPIF_at_once SPSR_late_collision 1 eq_refl)
              (first_SPIF_at_once SPSR_late_collision 3 eq_refl)
              (Nat.lt_0_succ 0) (Nat.lt_0_succ 0))
    as (msb & lsb & h' & Hrun & Hbytes & _ & _ & Hword & _).
  exists msb, lsb, h'. split; [exact Hrun |].
  split; [exact Hbytes | exact Hword].
Defined.



(** X12. [InitDtoA] returns exactly when the hardware shows the
    transfer-complete flag after each of the two bytes of its closing
    sample write; on an SPI unit that never shows it, initialisation never
    returns. *)
Theorem InitDtoA_returns_iff
  (MSTR SPR0 SPE SPI2X bit : Z) (b : spi_board) :
  (exists fuel b', InitDtoA MSTR SPR0 SPE SPI2X bit fuel b = Some b')
  <-> (exists k1 k2,
         first_SPIF (SPSR_stream (spi b)) (SPSR_reads (spi b) + 1) k1 /\
         first_SPIF (SPSR_stream (spi b)) (SPSR_reads (spi b) + k1 + 3) k2).
Proof.
  unfold InitDtoA. split.
  - intros (fuel & b' & Hrun).
    erewrite bind_Some in Hrun by reflexivity.
    destruct (WriteDtoASample bit fuel 0 _) as [[u h'] |] eqn:Hw;
      [| discriminate].
    apply WriteDtoASample_Some in Hw.
    destruct Hw as (k1 & k2 & H1 & H2 & _).
    now exists k1, k2.
  - intros (k1 & k2 & H1 & H2).
    exists (S (Nat.max k1 k2)).
    erewrite bind_Some by reflexivity.
    rewrite (WriteDtoASample_run bit _ 0 _ k1 k2) by (assumption || lia).
    eexists. reflexivity.
Qed.

Lemma InitDtoA_returns_iff_witness :
  ~ exists fuel b',
      InitDtoA 4 0 6 0 4 fuel (mkBoard 0 0 0 (hw_init SPSR_never_complete))
      = Some b'.
Proof.
  intros Hrun.
  apply (proj1 (InitDtoA_returns_iff 4 0 6 0 4
                  (mkBoard 0 0 0 (hw_init SPSR_never_complete)))) in Hrun.
  destruct Hrun as (k1 & k2 & [_ Hset] & _).
  discriminate Hset.
Defined.

(** X13. Two sample writes in a row, on hardware that completes all four
    transfers, store four bytes to SPDR: the two bytes of the first sample,
    then the two bytes of the second; the second write takes up the status
    reads where the first left off, and the chip-select line ends high. *)
Theorem WriteDtoASample_twice
  (bit : Z) (fuel : nat) (Value1 Value2 : Z) (h : hw_state)
  (k1 k2 k3 k4 : nat) :
  0 <= bit < 8 ->
  let after1 := (SPSR_reads h + k1 + k2 + 4)%nat in
  first_SPIF (SPSR_stream h) (SPSR_reads h + 1) k1 ->
  first_SPIF (SPSR_stream h) (SPSR_reads h + k1 + 3) k2 ->
  first_SPIF (SPSR_stream h) (after1 + 1) k3 ->
  first_SPIF (SPSR_stream h) (after1 + k3 + 3) k4 ->
  (k1 < fuel)%nat -> (k2 < fuel)%nat -> (k3 < fuel)%nat -> (k4 < fuel)%nat ->
  exists m1 l1 m2 l2 h',
    (WriteDtoASample bit fuel Value1 ;; WriteDtoASample bit fuel Value2) h
    = Some (tt, h') /\
    SPDR_writes (trace h') = SPDR_writes (trace h) ++ [m1; l1; m2; l2] /\
    m1 * 256 + l1 = (Value1 * 4) mod 65536 /\
    m2 * 256 + l2 = (Value2 * 4) mod 65536 /\
    SPSR_reads h' = (after1 + k3 + k4 + 4)%nat /\
    Z.testbit (PORTB h') bit = true.
Proof.
  intros Hbit after1 H1 H2 H3 H4 F1 F2 F3 F4.
  destruct (sample_word Value1) as (Hw1 & Hs1 & _).
  destruct (sample_word Value2) as (Hw2 & Hs2 & _).
  do 5 eexists. split.
  { erewrite bind_Some
      by (apply WriteDtoASample_run with (k1 := k1) (k2 := k2); assumption).
    apply WriteDtoASample_run with (k1 := k3) (k2 := k4); assumption. }
  cbn [trace SPSR_reads PORTB SPSR_stream].
  split.
  { rewrite !SPDR_writes_app, !SPDR_writes_protocol, <- app_assoc.
    reflexivity. }
  rewrite Hs1, Hs2.
  split; [exact Hw1 |]. split; [exact Hw2 |].
  split; [reflexivity |].
  now apply line_high_sets.
Qed.

Lemma WriteDtoASample_twice_witness :
  0 <= 4 < 8 /\
  exists h',
    (WriteDtoASample 4 1 0x3FF ;; WriteDtoASample 4 1 0)
      (hw_init SPSR_always_complete) = Some (tt, h') /\
    SPSR_reads h' = 8%nat.
Proof.
  split; [exact PB4 |].
  destruct (WriteDtoASample_twice 4 1 0x3FF 0
              (hw_init SPSR_always_complete) 0 0 0 0 PB4
              (first_SPIF_at_once SPSR_always_complete 1 eq_refl)
              (first_SPIF_at_once SPSR_always_complete 3 eq_refl)
              (first_SPIF_at_once SPSR_always_complete 5 eq_refl)
              (first_SPIF_at_once SPSR_always_complete 7 eq_refl)
              (Nat.lt_0_succ 0) (Nat.lt_0_succ 0)
              (Nat.lt_0_succ 0) (Nat.lt_0_succ 0))
    as (m1 & l1 & m2 & l2 & h' & Hrun & _ & _ & _ & Hreads & _).
  exists h'. split; [exact Hrun | exact Hreads].
Defined.

(** X14. Nothing of a digit's 16-bit segment pattern is lost in the split
    into four nibbles: the four values put back at bits 0, 4, 8 and 12 give
    the digit's entry of [NumberSegments]. *)
Theorem GetLCDDRValues_reassembles
  (sg : bool) (d v0 v5 v10 v15 : Z) :
  0 <= d <= 9 ->
  GetLCDDRValues sg (chr_0 + d) = Ok (v0, v5, v10, v15) ->
  v0 + 16 * v5 + 256 * v10 + 4096 * v15 = NumberSegments_at d.
Proof.
  intros Hd Hv.
  assert (Hc : d = 0 \/ d = 1 \/ d = 2 \/ d = 3 \/ d = 4 \/
               d = 5 \/ d = 6 \/ d = 7 \/ d = 8 \/ d = 9) by lia.
  destruct sg; repeat (destruct Hc as [-> | Hc]); subst;
    vm_compute in Hv; injection Hv as <- <- <- <-; reflexivity.
Qed.

Lemma digit_8 : 0 <= 8 <= 9.
Proof. split; discriminate. Defined.

Lemma GetLCDDRValues_reassembles_witness :
  0 <= 8 <= 9 /\
  GetLCDDRValues true (chr_0 + 8) = Ok (1, 5, 15, 1) /\
  1 + 16 * 5 + 256 * 15 + 4096 * 1 = NumberSegments_at 8.
Proof.
  split; [exact digit_8 |]. split; [reflexivity |].
  exact (GetLCDDRValues_reassembles true 8 1 5 15 1 digit_8 eq_refl).
Defined.
